(** * artifact-checker: a shallow embedding of [main.py]

    The program polls Maven Central for the latest version of each artifact
    of a catalog, compares it with the version kept in a SQLite table and
    records (and announces) the new one.  The embedding threads an explicit
    world (database files, standard output, the log of HTTP requests, ...)
    through a small state-and-exception monad; everything the program reads
    from outside (HTTP replies, SQLite faults, the catalog file) is an
    oracle gathered in the record [Env]. *)

From Stdlib Require Import String Ascii List Arith Bool Lia.
From stdpp Require Import gmap strings list.
Import ListNotations.
Local Open Scope string_scope.

(** ** Python values *)

Module Py.

(** Truth value of a value that is [None] or a [str]. *)
Definition truthy (o : option string) : bool :=
  match o with
  | None => false
  | Some s => negb (String.eqb s "")
  end.

Definition is_none {A} (o : option A) : bool :=
  match o with None => true | Some _ => false end.

(** [a != b] on values that are [None] or a [str]. *)
Definition ne (a b : option string) : bool :=
  match a, b with
  | None, None => false
  | Some x, Some y => negb (String.eqb x y)
  | _, _ => true
  end.

(** [str(x)], as an f-string renders a value that is [None] or a [str]. *)
Definition str (o : option string) : string :=
  match o with None => "None" | Some s => s end.

(** [s.replace(old, new)] for one-character [old] and [new]. *)
Fixpoint replace (old new : ascii) (s : string) : string :=
  match s with
  | EmptyString => EmptyString
  | String c s' =>
      String (if Ascii.eqb c old then new else c) (replace old new s')
  end.

End Py.

(** ** The data *)

(** A row of the table [versions]; the column [version] may hold NULL. *)
Record row := Row {
  group_id : string;
  artifact_id : string;
  version : option string
}.

(** An entry of [artifacts.json]: [artifact.get(key)] is [None] when the key
    is missing. *)
Record artifact := Artifact {
  get_group_id : option string;
  get_artifact_id : option string
}.

Record email := Email {
  source : string;
  to_address : string;
  subject_data : string;
  body_data : string
}.

(** What lines 13-16 of [get_latest_version] come to: the text of the
    [<latest>] element ([None] when the element is empty), or one of the two
    families of exceptions the function catches.  The replies are those the
    function answers: an exception that neither handler catches is not
    among them. *)
Inductive fetch_result :=
| LatestText (text : option string)
| RequestException (e : string)
| ParseFailure (e : string).

(** What [json.load] of the catalog file comes to. *)
Inductive json_file :=
| FileNotFoundError
| JSONDecodeError
| Loaded (artifacts : list artifact).

(** The outside of the program.
    - [remote n url]: the reply to the [n]-th HTTP request of the run;
    - [sqlite_fault c]: [Some (k, e)] when, on the [c]-th connection of the
      run, the [k]-th call into SQLite raises [sqlite3.Error(e)]; call 0 is
      [sqlite3.connect] itself;
    - [artifacts_json]: the content of the catalog file;
    - [email_settings]: the truth value of [load_email_settings()], a
      function [main] calls and the source file does not define;
    - [ses_client]: [Some e] when [boto3.client('ses')] raises (no region
      configured, say), [None] when it gives a client;
    - [ses_reply n]: what the [n]-th call of [client.send_email] comes to,
      a message id or the text of the exception it raises. *)
Record Env := {
  remote : nat -> string -> fetch_result;
  sqlite_fault : nat -> option (nat * string);
  artifacts_json : json_file;
  email_settings : bool;
  ses_client : option string;
  ses_reply : nat -> string + string
}.

(** The state the program acts on.  [files] maps the path of a database
    file to the rows of its table [versions], in rowid order; a path without
    a binding is a database without that table (no file yet, or an empty
    one).  The table is the one the CREATE TABLE statement of the program
    makes, with its primary key; [unique_keys] says that rows satisfy
    it.  The paths [":memory:"] and [""] name no file, SQLite gives every
    connection opened on them a database of its own that is lost when the
    connection closes, and they are never bound (see [private]).  Paths are
    taken as the file system resolves them: two bindings are two files.
    [replaced] is the history of the REPLACE statements committed to
    database files, [ses_requests] that of the calls of
    [client.send_email], whether SES accepted them or not. *)
Record World := {
  files : gmap string (list row);
  stdout : list string;
  requests : list string;
  connections : nat;
  replaced : list (string * row);
  ses_requests : list email
}.

Definition set_files (f : gmap string (list row)) (w : World) : World :=
  {| files := f; stdout := stdout w; requests := requests w;
     connections := connections w; replaced := replaced w;
     ses_requests := ses_requests w |}.

Definition emit (line : string) (w : World) : World :=
  {| files := files w; stdout := stdout w ++ [line]; requests := requests w;
     connections := connections w; replaced := replaced w;
     ses_requests := ses_requests w |}.

Definition log_request (url : string) (w : World) : World :=
  {| files := files w; stdout := stdout w; requests := requests w ++ [url];
     connections := connections w; replaced := replaced w;
     ses_requests := ses_requests w |}.

Definition open_connection (w : World) : World :=
  {| files := files w; stdout := stdout w; requests := requests w;
     connections := S (connections w); replaced := replaced w;
     ses_requests := ses_requests w |}.

Definition log_replace (p : string) (r : row) (w : World) : World :=
  {| files := files w; stdout := stdout w; requests := requests w;
     connections := connections w; replaced := replaced w ++ [(p, r)];
     ses_requests := ses_requests w |}.

Definition log_email (m : email) (w : World) : World :=
  {| files := files w; stdout := stdout w; requests := requests w;
     connections := connections w; replaced := replaced w;
     ses_requests := ses_requests w ++ [m] |}.

(** ** The monad: state, and the exceptions that escape a function *)

Inductive exn :=
| SqliteError (e : string)
| UnboundLocalError (name : string)
| BotoCoreError (e : string).

Inductive outcome (A : Type) :=
| Returned (a : A)
| Raised (e : exn).
Arguments Returned {A} a.
Arguments Raised {A} e.

Definition M (A : Type) : Type := World -> outcome A * World.

Definition ret {A} (a : A) : M A := fun w => (Returned a, w).

Definition bind {A B} (m : M A) (k : A -> M B) : M B :=
  fun w =>
    match m w with
    | (Returned a, w') => k a w'
    | (Raised e, w') => (Raised e, w')
    end.

Definition raise {A} (e : exn) : M A := fun w => (Raised e, w).

Definition modify (f : World -> World) : M unit := fun w => (Returned tt, f w).

Definition print (line : string) : M unit := modify (emit line).

Declare Scope py_scope.
Delimit Scope py_scope with py.
Notation "x <- m ;; k" := (bind m (fun x => k))
  (at level 100, m at next level, right associativity) : py_scope.
Notation "m ;; k" := (bind m (fun _ => k))
  (at level 100, right associativity) : py_scope.
Local Open Scope py_scope.

(** ** SQLite *)

Definition default_db : string := "artifact_versions.db".

Definition same_key (g a : string) (r : row) : bool :=
  String.eqb (group_id r) g && String.eqb (artifact_id r) a.

(** [SELECT version FROM versions WHERE group_id = ? AND artifact_id = ?]
    followed by [fetchone()]: the version column of the first matching
    row. *)
Definition select_version (g a : string) (rows : list row)
  : option (option string) :=
  match List.find (same_key g a) rows with
  | Some r => Some (version r)
  | None => None
  end.

(** [REPLACE INTO versions VALUES (?, ?, ?)]: the rows in conflict on the
    primary key are deleted and the new row gets a fresh rowid. *)
Definition replace_row (r : row) (rows : list row) : list row :=
  List.filter (fun r' => negb (same_key (group_id r) (artifact_id r) r')) rows
    ++ [r].

Definition rows_at (p : string) (w : World) : list row :=
  match files w !! p with Some rows => rows | None => [] end.

(** The paths on which [sqlite3.connect] opens a private database: the
    in-memory database and the temporary one.  What a connection does to
    such a database is gone when the function closes it. *)
Definition private (p : string) : bool :=
  String.eqb p ":memory:" || String.eqb p "".

(** [CREATE TABLE IF NOT EXISTS versions (...)]. *)
Definition create_table (p : string) (w : World) : World :=
  if private p then w
  else
    match files w !! p with
    | Some _ => w
    | None => set_files (<[p := []]> (files w)) w
    end.

(** What [commit] leaves in the file at [p], and in the history of
    commits. *)
Definition write_rows (p : string) (rows : list row) (w : World) : World :=
  if private p then w else set_files (<[p := rows]> (files w)) w.

Definition log_commit (p : string) (r : row) (w : World) : World :=
  if private p then w else log_replace p r w.

Section Program.

Variable E : Env.

Definition fault (c k : nat) : option string :=
  match sqlite_fault E c with
  | Some (k', e) => if Nat.eqb k' k then Some e else None
  | None => None
  end.

(** The [k]-th call into SQLite on connection [c]. *)
Definition sqlite_call {A} (c k : nat) (m : M A) : M A :=
  match fault c k with
  | Some e => raise (SqliteError e)
  | None => m
  end.

(** The frame the three database functions share:
<<
    try:
        conn = sqlite3.connect(db_path)
        ...
    except sqlite3.Error as e:
        print(f"Database error: {e}")
        [return None]
    finally:
        if conn:
            conn.close()
>>
    When [sqlite3.connect] raises, [conn] is never bound: the handler
    prints, and the test [if conn] of the [finally] clause raises
    [UnboundLocalError].  [on_error] is the value the function returns
    after its handler ran. *)
Definition db_session {A} (body : nat -> M A) (on_error : A) : M A :=
  fun w =>
    let c := connections w in
    let w0 := open_connection w in
    match fault c 0 with
    | Some e =>
        (Raised (UnboundLocalError "conn"), emit ("Database error: " ++ e) w0)
    | None =>
        match body c w0 with
        | (Raised (SqliteError e), w1) =>
            (Returned on_error, emit ("Database error: " ++ e) w1)
        | r => r
        end
    end.

Definition metadata_url (group_id artifact_id : string) : string :=
  "https://repo1.maven.org/maven2/" ++ Py.replace "." "/" group_id ++ "/"
    ++ artifact_id ++ "/maven-metadata.xml".

Definition get_latest_version (group_id artifact_id : string)
  : M (option string) :=
  fun w =>
    let metadata_url := metadata_url group_id artifact_id in
    let w0 := log_request metadata_url w in
    match remote E (List.length (requests w)) metadata_url with
    | LatestText latest_version => (Returned latest_version, w0)
    | RequestException e =>
        (Returned None, emit ("Error fetching metadata: " ++ e) w0)
    | ParseFailure e =>
        (Returned None, emit ("Error parsing metadata: " ++ e) w0)
    end.

Definition get_current_version_from_db
    (group_id artifact_id : string) (db_path : string) : M (option string) :=
  db_session (fun conn =>
    sqlite_call conn 1 (modify (create_table db_path)) ;;
    sqlite_call conn 2 (fun w =>
      match select_version group_id artifact_id (rows_at db_path w) with
      | Some result0 => (Returned result0, w)
      | None => (Returned None, w)
      end)) None.

Definition update_current_version_in_db
    (group_id artifact_id : string) (version : option string)
    (db_path : string) : M unit :=
  db_session (fun conn =>
    sqlite_call conn 1 (modify (create_table db_path)) ;;
    pending <- sqlite_call conn 2 (fun w =>
      (Returned (replace_row (Row group_id artifact_id version)
                   (rows_at db_path w)), w)) ;;
    sqlite_call conn 3 (modify (fun w =>
      log_commit db_path (Row group_id artifact_id version)
        (write_rows db_path pending w)))) tt.

Definition check_for_new_version (group_id artifact_id : string)
  : M (option string) :=
  current_version <-
    get_current_version_from_db group_id artifact_id default_db ;;
  latest_version <- get_latest_version group_id artifact_id ;;
  if Py.truthy latest_version && Py.truthy current_version
     && Py.ne latest_version current_version
  then ret latest_version
  else if Py.truthy latest_version && Py.is_none current_version
  then ret latest_version
  else ret None.

(** The client is made at line 88, before the [try]: what
    [boto3.client] raises escapes the function, and nothing was asked of
    SES.  What [client.send_email] raises is caught and printed. *)
Definition send_email (sender_email receiver_email subject body : string)
  : M unit :=
  fun w =>
    match ses_client E with
    | Some e => (Raised (BotoCoreError e), w)
    | None =>
        let w0 :=
          log_email (Email sender_email receiver_email subject body) w in
        match ses_reply E (List.length (ses_requests w)) with
        | inl message_id =>
            (Returned tt,
             emit ("Email notification sent successfully. Message ID: "
                     ++ message_id) w0)
        | inr e => (Returned tt, emit ("Error sending email: " ++ e) w0)
        end
    end.

Definition load_artifacts_from_json : M (list artifact) :=
  match artifacts_json E with
  | Loaded l => ret l
  | FileNotFoundError => print "Error: artifacts.json not found." ;; ret []
  | JSONDecodeError => print "Error: Invalid JSON in artifacts.json." ;; ret []
  end.

Definition print_row (r : row) : string :=
  "- " ++ group_id r ++ ":" ++ artifact_id r ++ " - " ++ Py.str (version r).

Definition print_current_versions (db_path : string) : M unit :=
  db_session (fun conn =>
    rows <- sqlite_call conn 1 (fun w =>
      match files w !! db_path with
      | Some rows => (Returned rows, w)
      | None => (Raised (SqliteError "no such table: versions"), w)
      end) ;;
    match rows with
    | _ :: _ =>
        print "Current Artifact Versions:" ;;
        modify (fun w => fold_left (fun w r => emit (print_row r) w) rows w)
    | [] => print "No artifact versions found in the database."
    end ;;
    print "") tt.

Definition subject_line (group_id artifact_id : string) : string :=
  "New Maven Artifact Version: " ++ group_id ++ ":" ++ artifact_id.

Definition body_text (group_id artifact_id : string)
    (new_version previous : option string) : string :=
  "A new version (" ++ Py.str new_version ++ ") of " ++ group_id ++ ":"
    ++ artifact_id ++ " is available." ++ String "010" "Previous version: "
    ++ Py.str previous.

(** Lines 164-189: the body of the loop of [main], once [group_id] and
    [artifact_id] are known to be present. *)
Definition main_body (group_id artifact_id : string) : M unit :=
  new_version <- check_for_new_version group_id artifact_id ;;
  if Py.truthy new_version then
    print ("- New version available for " ++ group_id ++ ":" ++ artifact_id
             ++ ": " ++ Py.str new_version) ;;
    update_current_version_in_db group_id artifact_id new_version default_db ;;
    let subject := subject_line group_id artifact_id in
    previous <- get_current_version_from_db group_id artifact_id default_db ;;
    let body := body_text group_id artifact_id new_version previous in
    (* send_email(sender_email, receiver_email, subject, body) is commented
       out in the source *)
    print subject ;;
    print body
  else
    print ("- No new version available for " ++ group_id ++ ":"
             ++ artifact_id ++ ".") ;;
    current <- get_current_version_from_db group_id artifact_id default_db ;;
    if Py.is_none current then
      first_version <- get_latest_version group_id artifact_id ;;
      update_current_version_in_db group_id artifact_id first_version
        default_db ;;
      print ("- First version added to database for " ++ group_id ++ ":"
               ++ artifact_id ++ ": " ++ Py.str first_version)
    else ret tt.

(** Lines 156-162 and the loop itself. *)
Fixpoint main_for (artifacts : list artifact) : M unit :=
  match artifacts with
  | [] => ret tt
  | artifact :: rest =>
      let group_id := get_group_id artifact in
      let artifact_id := get_artifact_id artifact in
      (if negb (Py.truthy group_id) || negb (Py.truthy artifact_id) then
         print "Warning: Missing group_id or artifact_id in JSON."
       else
         main_body (Py.str group_id) (Py.str artifact_id)) ;;
      main_for rest
  end.

Definition main : M unit :=
  print_current_versions default_db ;;
  artifacts <- load_artifacts_from_json ;;
  if negb (email_settings E) then
    print "Error: Email settings not found. Exiting."
  else
    print "New Versions:" ;;
    main_for artifacts.

End Program.

(** ** The vocabulary of the specification *)

Module Spec.

(** The four transitions of the reconciliation engine. *)
Inductive Transition :=
| FirstSeen (version : string)
| Upgraded (previous current : string)
| Unchanged (version : string)
| ResolutionFailed (reason : string).

(** The algorithm of the engine as the specification words it: a failed
    resolution first, then an absent baseline, then exact string
    comparison with the baseline. *)
Definition transition (prior : option string) (resolved : fetch_result)
  : Transition :=
  match resolved with
  | RequestException e => ResolutionFailed e
  | ParseFailure e => ResolutionFailed e
  | LatestText None => ResolutionFailed "latest version absent"
  | LatestText (Some latest) =>
      match prior with
      | None => FirstSeen latest
      | Some previous =>
          if String.eqb previous latest then Unchanged latest
          else Upgraded previous latest
      end
  end.

(** The transitions that call for a notification, with the version to
    announce. *)
Definition announces (t : Transition) : option string :=
  match t with
  | FirstSeen v | Upgraded _ v => Some v
  | Unchanged _ | ResolutionFailed _ => None
  end.

End Spec.

(** What [Store.get] answers on a store without faults: the version column
    of the record, [None] when there is no record (or the column is NULL). *)
Definition stored_version (g a p : string) (w : World) : option string :=
  match select_version g a (rows_at p w) with
  | Some v => v
  | None => None
  end.

(** A version string is never empty: the XML parser gives [None], not the
    empty string, for an element without text. *)
Definition nonempty (s : string) : bool := negb (String.eqb s "").

Definition not_blank (o : option string) : bool :=
  match o with Some s => nonempty s | None => true end.

(** A store whose every call succeeds. *)
Definition healthy (E : Env) : Prop := forall c, sqlite_fault E c = None.

(** The first [calls] calls into SQLite on connection [c], and
    [sqlite3.connect] itself, raise nothing. *)
Definition faultless (E : Env) (c calls : nat) : Prop :=
  forall k, k <= calls -> fault E c k = None.

(** How many records the table holds for a key. *)
Definition records_for (g a : string) (rows : list row) : nat :=
  List.length (List.filter (same_key g a) rows).

(** The lines a run added to standard output, and the requests it made. *)
Definition printed (w w' : World) : list string :=
  drop (List.length (stdout w)) (stdout w').

Definition requested (w w' : World) : list string :=
  drop (List.length (requests w)) (requests w').

(** The world after a [get_current_version_from_db] whose calls all
    succeed, after such an [update_current_version_in_db], and after a
    [get_latest_version]; the database functions are related to them in
    section [NoFault]. *)
Definition consulted (p : string) (w : World) : World :=
  create_table p (open_connection w).

Definition upserted (p : string) (r : row) (w : World) : World :=
  log_commit p r
    (write_rows p (replace_row r (rows_at p w))
       (create_table p (open_connection w))).

Definition latest_of (r : fetch_result) : option string :=
  match r with LatestText t => t | _ => None end.

Definition complaint (r : fetch_result) : list string :=
  match r with
  | LatestText _ => []
  | RequestException e => ["Error fetching metadata: " ++ e]
  | ParseFailure e => ["Error parsing metadata: " ++ e]
  end.

Definition reply (E : Env) (g a : string) (w : World) : fetch_result :=
  remote E (List.length (requests w)) (metadata_url g a).

Definition fetched (E : Env) (g a : string) (w : World) : World :=
  fold_left (fun w line => emit line w) (complaint (reply E g a w))
    (log_request (metadata_url g a) w).

(** The value [check_for_new_version] returns (lines 80-84), as a function
    of the two values it compares. *)
Definition decided (latest_version current_version : option string)
  : option string :=
  if Py.truthy latest_version && Py.truthy current_version
     && Py.ne latest_version current_version
  then latest_version
  else if Py.truthy latest_version && Py.is_none current_version
  then latest_version
  else None.

(** The two lines by which [main] reports an artifact. *)
Definition new_version_line (g a v : string) : string :=
  "- New version available for " ++ g ++ ":" ++ a ++ ": " ++ v.

Definition no_new_version_line (g a : string) : string :=
  "- No new version available for " ++ g ++ ":" ++ a ++ ".".

Definition first_version_line (g a : string) (v : option string) : string :=
  "- First version added to database for " ++ g ++ ":" ++ a ++ ": "
    ++ Py.str v.

(** ** What the specification asks of the body of the loop *)

Module Required.

(** One notification reaches the notification channel for each first-seen
    or upgraded artifact. *)
Definition one_dispatch_per_announcement (E : Env) (w : World)
    (g a : string) : Prop :=
  forall v,
    Spec.announces
      (Spec.transition (stored_version g a default_db w) (reply E g a w))
      = Some v ->
    List.length (ses_requests (snd (main_body E g a w)))
      = S (List.length (ses_requests w)).

(** What is reported of an artifact: the value the engine returns and the
    lines printed while the artifact is processed. *)
Definition report (E : Env) (w : World) (g a : string)
  : outcome (option string) * list string :=
  (fst (check_for_new_version E g a w),
   printed w (snd (main_body E g a w))).

(** A failed resolution (in [E]) and an unchanged version (in [E'])
    are reported differently. *)
Definition failure_told_apart (E E' : Env) (w : World) (g a : string)
  : Prop :=
  forall reason v,
    Spec.transition (stored_version g a default_db w) (reply E g a w)
      = Spec.ResolutionFailed reason ->
    Spec.transition (stored_version g a default_db w) (reply E' g a w)
      = Spec.Unchanged v ->
    report E w g a <> report E' w g a.

(** One request per artifact and run. *)
Definition single_attempt (E : Env) (w : World) (g a : string) : Prop :=
  requested w (snd (main_body E g a w)) = [metadata_url g a].

(** After an artifact whose resolution succeeds was processed, the store
    holds a record for it with the resolved version. *)
Definition write_through (E : Env) (w : World) (g a : string) : Prop :=
  forall v,
    reply E g a w = LatestText (Some v) ->
    select_version g a (rows_at default_db (snd (main_body E g a w)))
      = Some (Some v).

(** A second run with the same resolved version finds it unchanged and
    writes nothing. *)
Definition idempotent (E : Env) (w : World) (g a v : string) : Prop :=
  (forall n, remote E n (metadata_url g a) = LatestText (Some v)) ->
  let w1 := snd (main_body E g a w) in
  fst (check_for_new_version E g a w1) = Returned None /\
  replaced (snd (main_body E g a w1)) = replaced w1 /\
  files (snd (main_body E g a w1)) = files w1.

(** After an upsert that completes without a fault, a get on the same path
    returns the version and the store holds one record for the key. *)
Definition round_trip (E : Env) (w : World) (g a v p : string) : Prop :=
  faultless E (connections w) 3 ->
  let w1 := snd (update_current_version_in_db E g a (Some v) p w) in
  fst (get_current_version_from_db E g a p w1) = Returned (Some v) /\
  records_for g a (rows_at p w1) = 1.

End Required.

(** No record of the default database holds an empty version string. *)
Definition blank_free (w : World) : Prop :=
  forall g a, not_blank (stored_version g a default_db w) = true.

(** ** Properties of computations *)

(** [m] returns, whatever the world it starts from. *)
Definition returns {A} (m : M A) : Prop :=
  forall w, exists a w', m w = (Returned a, w').

(** [m] leaves the observation [obs] of the world as it was, whether it
    returns or raises. *)
Definition preserves {A X} (obs : World -> X) (m : M A) : Prop :=
  forall w, obs (snd (m w)) = obs w.

(** [m] makes at most [n] requests. *)
Definition requests_at_most {A} (n : nat) (m : M A) : Prop :=
  forall w, exists l,
    requests (snd (m w)) = (requests w ++ l)%list /\ List.length l <= n.

(** ** Scenarios *)

Module Scenario.

Definition fresh : World :=
  {| files := ∅; stdout := []; requests := []; connections := 0;
     replaced := []; ses_requests := [] |}.

(** A store that holds one record. *)
Definition tracking (g a v : string) : World :=
  {| files := {[ default_db := [Row g a (Some v)] ]}; stdout := [];
     requests := []; connections := 0; replaced := [];
     ses_requests := [] |}.

Definition lib : artifact := Artifact (Some "org.example") (Some "lib").
Definition core : artifact := Artifact (Some "org.example") (Some "core").
Definition util : artifact := Artifact (Some "org.example") (Some "util").

Definition lib_url : string :=
  "https://repo1.maven.org/maven2/org/example/lib/maven-metadata.xml".
Definition core_url : string :=
  "https://repo1.maven.org/maven2/org/example/core/maven-metadata.xml".

(** Every request is answered [reply]; the store has no fault. *)
Definition answering (reply : fetch_result) (catalog : list artifact) : Env :=
  {| remote := fun _ _ => reply; sqlite_fault := fun _ => None;
     artifacts_json := Loaded catalog; email_settings := true;
     ses_client := None; ses_reply := fun _ => inl "0100" |}.

(** The remote answers 1.0 for every artifact but [core], whose request
    times out. *)
Definition core_unreachable (catalog : list artifact) : Env :=
  {| remote := fun _ url =>
       if String.eqb url core_url then RequestException "timed out"
       else LatestText (Some "1.0");
     sqlite_fault := fun _ => None;
     artifacts_json := Loaded catalog; email_settings := true;
     ses_client := None; ses_reply := fun _ => inl "0100" |}.

(** The remote answers 3.1.0; the database cannot be opened on the
    connection number [c] of the run. *)
Definition unopenable_at (c : nat) (catalog : list artifact) : Env :=
  {| remote := fun _ _ => LatestText (Some "3.1.0");
     sqlite_fault := fun n =>
       if Nat.eqb n c then Some (0, "unable to open database file")
       else None;
     artifacts_json := Loaded catalog; email_settings := true;
     ses_client := None; ses_reply := fun _ => inl "0100" |}.

End Scenario.

(** ** More vocabulary for the store and the catalog *)

(** The primary key holds: no key has two rows. *)
Definition unique_keys (rows : list row) : Prop :=
  forall g a, records_for g a rows <= 1.

Definition all_unique (w : World) : Prop :=
  forall p, unique_keys (rows_at p w).

(** [m] keeps the property [P] of the world, whether it returns or
    raises. *)
Definition keeps {A} (P : World -> Prop) (m : M A) : Prop :=
  forall w, P w -> P (snd (m w)).

(** What [print_current_versions] prints of a table. *)
Definition listing (rows : list row) : list string :=
  match rows with
  | [] => ["No artifact versions found in the database."; ""]
  | _ :: _ =>
      ("Current Artifact Versions:" :: List.map print_row rows ++ [""])%list
  end.

Definition emit_all (lines : list string) (w : World) : World :=
  fold_left (fun w line => emit line w) lines w.

(** The line the handler of the database functions prints. *)
Definition database_error (e : string) : string := "Database error: " ++ e.

(** An entry of the catalog that the loop skips. *)
Definition malformed (x : artifact) : bool :=
  negb (Py.truthy (get_group_id x)) || negb (Py.truthy (get_artifact_id x)).

Definition warning : string :=
  "Warning: Missing group_id or artifact_id in JSON.".

(** The catalog [main] iterates over. *)
Definition catalog (E : Env) : list artifact :=
  match artifacts_json E with
  | Loaded l => l
  | FileNotFoundError | JSONDecodeError => []
  end.

Module Faults.

(** The remote answers [reply]; on connection [c] the call number [k] into
    SQLite raises. *)
Definition statement_fault (c k : nat) (reply : fetch_result) : Env :=
  {| remote := fun _ _ => reply;
     sqlite_fault := fun n =>
       if Nat.eqb n c then Some (k, "disk I/O error") else None;
     artifacts_json := Loaded [Artifact (Some "org.example") (Some "lib")];
     email_settings := true;
     ses_client := None; ses_reply := fun _ => inl "0100" |}.

(** A healthy store and a remote that answers by URL. *)
Definition by_url (answer : string -> fetch_result) (l : list artifact)
  : Env :=
  {| remote := fun _ url => answer url; sqlite_fault := fun _ => None;
     artifacts_json := Loaded l; email_settings := true;
     ses_client := None; ses_reply := fun _ => inl "0100" |}.

(** The first request of the run times out, the later ones are answered
    [reply]; the store has no fault. *)
Definition flaky (reply : fetch_result) : Env :=
  {| remote := fun n _ =>
       if Nat.eqb n 0 then RequestException "timed out" else reply;
     sqlite_fault := fun _ => None;
     artifacts_json := Loaded [Artifact (Some "org.example") (Some "lib")];
     email_settings := true;
     ses_client := None; ses_reply := fun _ => inl "0100" |}.


End Faults.

(** ** Tactics *)

(** Lines that begin differently are different lines. *)
Ltac distinct_lines :=
  unfold subject_line, body_text, new_version_line, no_new_version_line,
    first_version_line, complaint in *;
  repeat match goal with
    | r : fetch_result |- _ => destruct r
    end;
  rewrite ?in_app_iff; simpl; intuition discriminate.

(** * Facts about the store *)

Section StoreFacts.

Implicit Types (w : World) (p g a : string) (rows : list row).

Lemma create_table_stdout p w : stdout (create_table p w) = stdout w.
Proof.
  unfold create_table. destruct (private p); [reflexivity|].
  now destruct (files w !! p).
Qed.

Lemma create_table_requests p w : requests (create_table p w) = requests w.
Proof.
  unfold create_table. destruct (private p); [reflexivity|].
  now destruct (files w !! p).
Qed.

Lemma create_table_connections p w :
  connections (create_table p w) = connections w.
Proof.
  unfold create_table. destruct (private p); [reflexivity|].
  now destruct (files w !! p).
Qed.

Lemma create_table_replaced p w : replaced (create_table p w) = replaced w.
Proof.
  unfold create_table. destruct (private p); [reflexivity|].
  now destruct (files w !! p).
Qed.

Lemma create_table_ses p w :
  ses_requests (create_table p w) = ses_requests w.
Proof.
  unfold create_table. destruct (private p); [reflexivity|].
  now destruct (files w !! p).
Qed.

Lemma create_table_lookup p w :
  private p = false ->
  files (create_table p w) !! p = Some (rows_at p w).
Proof.
  intros Hp. unfold create_table, rows_at. rewrite Hp.
  destruct (files w !! p) eqn:Hf; simpl; [exact Hf | apply lookup_insert_eq].
Qed.

Lemma create_table_rows p w : rows_at p (create_table p w) = rows_at p w.
Proof.
  destruct (private p) eqn:Hp.
  - unfold create_table. now rewrite Hp.
  - unfold rows_at at 1. now rewrite create_table_lookup.
Qed.

(** [CREATE TABLE IF NOT EXISTS] leaves an existing table alone. *)
Lemma create_table_exists p w rows :
  files w !! p = Some rows -> create_table p w = w.
Proof.
  intros Hp. unfold create_table. rewrite Hp. now destruct (private p).
Qed.

Lemma write_rows_rows p rows w :
  private p = false -> rows_at p (write_rows p rows w) = rows.
Proof.
  intros Hp. unfold rows_at, write_rows. rewrite Hp; simpl.
  now rewrite lookup_insert_eq.
Qed.

(** A private database leaves no trace in the world. *)
Lemma write_rows_private p rows w : private p = true -> write_rows p rows w = w.
Proof. intros Hp. unfold write_rows. now rewrite Hp. Qed.

Lemma log_commit_private p r w : private p = true -> log_commit p r w = w.
Proof. intros Hp. unfold log_commit. now rewrite Hp. Qed.

Lemma create_table_private p w : private p = true -> create_table p w = w.
Proof. intros Hp. unfold create_table. now rewrite Hp. Qed.

Lemma log_commit_file p r w :
  private p = false -> log_commit p r w = log_replace p r w.
Proof. intros Hp. unfold log_commit. now rewrite Hp. Qed.

Lemma write_rows_stdout p rows w : stdout (write_rows p rows w) = stdout w.
Proof. unfold write_rows. now destruct (private p). Qed.

Lemma write_rows_requests p rows w :
  requests (write_rows p rows w) = requests w.
Proof. unfold write_rows. now destruct (private p). Qed.

Lemma write_rows_replaced p rows w :
  replaced (write_rows p rows w) = replaced w.
Proof. unfold write_rows. now destruct (private p). Qed.

Lemma write_rows_ses p rows w :
  ses_requests (write_rows p rows w) = ses_requests w.
Proof. unfold write_rows. now destruct (private p). Qed.

Lemma write_rows_connections p rows w :
  connections (write_rows p rows w) = connections w.
Proof. unfold write_rows. now destruct (private p). Qed.

Lemma log_commit_stdout p r w : stdout (log_commit p r w) = stdout w.
Proof. unfold log_commit. now destruct (private p). Qed.

Lemma log_commit_requests p r w : requests (log_commit p r w) = requests w.
Proof. unfold log_commit. now destruct (private p). Qed.

Lemma log_commit_ses p r w :
  ses_requests (log_commit p r w) = ses_requests w.
Proof. unfold log_commit. now destruct (private p). Qed.

Lemma log_commit_connections p r w :
  connections (log_commit p r w) = connections w.
Proof. unfold log_commit. now destruct (private p). Qed.

Lemma log_commit_files p r w : files (log_commit p r w) = files w.
Proof. unfold log_commit. now destruct (private p). Qed.

Lemma rows_at_log_commit q p r w :
  rows_at q (log_commit p r w) = rows_at q w.
Proof. unfold rows_at. now rewrite log_commit_files. Qed.

Lemma find_none_filter_negb {A} (f : A -> bool) (l : list A) :
  List.find f (List.filter (fun x => negb (f x)) l) = None.
Proof.
  induction l as [|x l IH]; simpl; [reflexivity|].
  destruct (f x) eqn:Hx; simpl; [exact IH | now rewrite Hx].
Qed.

Lemma find_app_none {A} (f : A -> bool) (l1 l2 : list A) :
  List.find f l1 = None -> List.find f (l1 ++ l2)%list = List.find f l2.
Proof.
  induction l1 as [|x l1 IH]; simpl; [reflexivity|].
  destruct (f x); [discriminate | exact IH].
Qed.

Lemma same_key_refl g a v : same_key g a (Row g a v) = true.
Proof. unfold same_key; simpl. now rewrite !String.eqb_refl. Qed.

(** After [REPLACE], [SELECT] finds the new row. *)
Lemma select_replace_row g a v rows :
  select_version g a (replace_row (Row g a v) rows) = Some v.
Proof.
  unfold select_version, replace_row; simpl.
  rewrite find_app_none by apply find_none_filter_negb.
  simpl. now rewrite same_key_refl.
Qed.

Lemma filter_filter_negb_nil {A} (f : A -> bool) (l : list A) :
  List.filter f (List.filter (fun x => negb (f x)) l) = [].
Proof.
  induction l as [|x l IH]; simpl; [reflexivity|].
  destruct (f x) eqn:Hx; simpl; [exact IH | now rewrite Hx].
Qed.

(** After [REPLACE], the key has one row, whatever the table held. *)
Lemma records_for_replace_row g a v rows :
  records_for g a (replace_row (Row g a v) rows) = 1.
Proof.
  unfold records_for, replace_row; simpl.
  rewrite List.filter_app, filter_filter_negb_nil; simpl.
  now rewrite same_key_refl.
Qed.

Lemma rows_at_emit p l w : rows_at p (emit l w) = rows_at p w.
Proof. reflexivity. Qed.

Lemma rows_at_log_request p u w : rows_at p (log_request u w) = rows_at p w.
Proof. reflexivity. Qed.

Lemma rows_at_open_connection p w :
  rows_at p (open_connection w) = rows_at p w.
Proof. reflexivity. Qed.

Lemma rows_at_log_replace p q r w :
  rows_at p (log_replace q r w) = rows_at p w.
Proof. reflexivity. Qed.

Lemma stdout_emit l w : stdout (emit l w) = (stdout w ++ [l])%list.
Proof. reflexivity. Qed.

Lemma requests_emit l w : requests (emit l w) = requests w.
Proof. reflexivity. Qed.

Lemma replaced_emit l w : replaced (emit l w) = replaced w.
Proof. reflexivity. Qed.

Lemma ses_requests_emit l w : ses_requests (emit l w) = ses_requests w.
Proof. reflexivity. Qed.

Lemma files_emit l w : files (emit l w) = files w.
Proof. reflexivity. Qed.

Lemma stored_version_rows g a p w w' :
  rows_at p w' = rows_at p w ->
  stored_version g a p w' = stored_version g a p w.
Proof. unfold stored_version. now intros ->. Qed.

Lemma stored_version_some g a p w v :
  stored_version g a p w = Some v ->
  select_version g a (rows_at p w) = Some (Some v).
Proof.
  unfold stored_version.
  destruct (select_version g a (rows_at p w)) as [[u|]|]; congruence.
Qed.

(** A record that is read back comes from an existing table. *)
Lemma stored_version_table g a p w v :
  stored_version g a p w = Some v -> files w !! p = Some (rows_at p w).
Proof.
  unfold stored_version, rows_at.
  destruct (files w !! p); [reflexivity | discriminate].
Qed.

End StoreFacts.

(** * The worlds the functions lead to *)

Section Worlds.

Implicit Types (w : World) (p g a : string) (r : row).

Lemma consulted_stdout p w : stdout (consulted p w) = stdout w.
Proof. unfold consulted. now rewrite create_table_stdout. Qed.

Lemma consulted_requests p w : requests (consulted p w) = requests w.
Proof. unfold consulted. now rewrite create_table_requests. Qed.

Lemma consulted_replaced p w : replaced (consulted p w) = replaced w.
Proof. unfold consulted. now rewrite create_table_replaced. Qed.

Lemma consulted_ses p w : ses_requests (consulted p w) = ses_requests w.
Proof. unfold consulted. now rewrite create_table_ses. Qed.

Lemma consulted_rows p w : rows_at p (consulted p w) = rows_at p w.
Proof. unfold consulted. now rewrite create_table_rows. Qed.

Lemma consulted_files p w rows :
  files w !! p = Some rows -> files (consulted p w) = files w.
Proof.
  intros Hp. unfold consulted.
  now rewrite (create_table_exists p (open_connection w) rows).
Qed.

Lemma upserted_stdout p r w : stdout (upserted p r w) = stdout w.
Proof.
  unfold upserted.
  now rewrite log_commit_stdout, write_rows_stdout, create_table_stdout.
Qed.

Lemma upserted_requests p r w : requests (upserted p r w) = requests w.
Proof.
  unfold upserted.
  now rewrite log_commit_requests, write_rows_requests, create_table_requests.
Qed.

Lemma upserted_replaced p r w :
  private p = false ->
  replaced (upserted p r w) = (replaced w ++ [(p, r)])%list.
Proof.
  intros Hp. unfold upserted. rewrite log_commit_file by exact Hp. simpl.
  now rewrite write_rows_replaced, create_table_replaced.
Qed.

Lemma upserted_ses p r w : ses_requests (upserted p r w) = ses_requests w.
Proof.
  unfold upserted.
  now rewrite log_commit_ses, write_rows_ses, create_table_ses.
Qed.

Lemma upserted_connections p r w :
  connections (upserted p r w) = S (connections w).
Proof.
  unfold upserted.
  now rewrite log_commit_connections, write_rows_connections,
    create_table_connections.
Qed.

Lemma upserted_rows p r w :
  private p = false ->
  rows_at p (upserted p r w) = replace_row r (rows_at p w).
Proof.
  intros Hp. unfold upserted.
  now rewrite rows_at_log_commit, write_rows_rows.
Qed.

(** An upsert on a private database changes nothing but the count of
    connections. *)
Lemma upserted_private p r w :
  private p = true -> upserted p r w = open_connection w.
Proof.
  intros Hp. unfold upserted.
  now rewrite log_commit_private, write_rows_private, create_table_private.
Qed.

Lemma fetched_stdout E g a w :
  stdout (fetched E g a w) = (stdout w ++ complaint (reply E g a w))%list.
Proof.
  unfold fetched. destruct (reply E g a w); simpl;
    [now rewrite app_nil_r | reflexivity | reflexivity].
Qed.

Lemma fetched_requests E g a w :
  requests (fetched E g a w) = (requests w ++ [metadata_url g a])%list.
Proof. unfold fetched. now destruct (reply E g a w). Qed.

Lemma fetched_replaced E g a w : replaced (fetched E g a w) = replaced w.
Proof. unfold fetched. now destruct (reply E g a w). Qed.

Lemma fetched_ses E g a w : ses_requests (fetched E g a w) = ses_requests w.
Proof. unfold fetched. now destruct (reply E g a w). Qed.

Lemma fetched_files E g a w : files (fetched E g a w) = files w.
Proof. unfold fetched. now destruct (reply E g a w). Qed.

Lemma fetched_rows E g a p w : rows_at p (fetched E g a w) = rows_at p w.
Proof. unfold rows_at. now rewrite fetched_files. Qed.

Lemma stored_version_consulted g a p w :
  stored_version g a p (consulted p w) = stored_version g a p w.
Proof. apply stored_version_rows, consulted_rows. Qed.

Lemma stored_version_fetched E g' a' g a p w :
  stored_version g a p (fetched E g' a' w) = stored_version g a p w.
Proof. apply stored_version_rows, fetched_rows. Qed.

Lemma stored_version_emit g a p l w :
  stored_version g a p (emit l w) = stored_version g a p w.
Proof. reflexivity. Qed.

Lemma stored_version_upserted g a v p w :
  private p = false ->
  stored_version g a p (upserted p (Row g a v) w) = v.
Proof.
  intros Hp. unfold stored_version.
  now rewrite upserted_rows, select_replace_row.
Qed.

Lemma reply_consulted E g a p w :
  reply E g a (consulted p w) = reply E g a w.
Proof. unfold reply. now rewrite consulted_requests. Qed.

Lemma reply_emit E g a l w : reply E g a (emit l w) = reply E g a w.
Proof. reflexivity. Qed.

Lemma get_latest_version_eq E g a w :
  get_latest_version E g a w =
    (Returned (latest_of (reply E g a w)), fetched E g a w).
Proof.
  unfold get_latest_version, fetched, reply.
  now destruct (remote E (List.length (requests w)) (metadata_url g a)).
Qed.

End Worlds.

Create Rewrite HintDb world.
#[export] Hint Rewrite
  write_rows_rows upserted_replaced upserted_rows stored_version_upserted
  using (first [reflexivity | assumption]) : world.
#[export] Hint Rewrite
  create_table_rows
  stdout_emit requests_emit replaced_emit ses_requests_emit files_emit
  rows_at_emit rows_at_log_request rows_at_open_connection rows_at_log_replace
  consulted_stdout consulted_requests consulted_replaced consulted_ses
  consulted_rows upserted_stdout upserted_requests
  upserted_ses fetched_stdout fetched_requests fetched_replaced
  fetched_ses fetched_files fetched_rows
  stored_version_consulted stored_version_fetched stored_version_emit
  reply_consulted reply_emit
  : world.

(** * The database functions when no call faults *)

Section NoFault.

Variable E : Env.

Lemma faultless_healthy c n : healthy E -> faultless E c n.
Proof. intros H k _. unfold fault. now rewrite H. Qed.

Lemma get_current_version_ok g a p w :
  faultless E (connections w) 2 ->
  get_current_version_from_db E g a p w =
    (Returned (stored_version g a p w), consulted p w).
Proof.
  intros H.
  unfold get_current_version_from_db, db_session, sqlite_call, bind, modify.
  rewrite !H by lia.
  rewrite create_table_rows. unfold stored_version, consulted.
  change (rows_at p (open_connection w)) with (rows_at p w).
  now destruct (select_version g a (rows_at p w)).
Qed.

Lemma update_current_version_ok g a v p w :
  faultless E (connections w) 3 ->
  update_current_version_in_db E g a v p w =
    (Returned tt, upserted p (Row g a v) w).
Proof.
  intros H.
  unfold update_current_version_in_db, db_session, sqlite_call, bind, modify.
  rewrite !H by lia. rewrite create_table_rows. reflexivity.
Qed.

Hypothesis Hdb : healthy E.

Lemma get_current_version_healthy g a p w :
  get_current_version_from_db E g a p w =
    (Returned (stored_version g a p w), consulted p w).
Proof. apply get_current_version_ok, faultless_healthy, Hdb. Qed.

Lemma update_current_version_healthy g a v p w :
  update_current_version_in_db E g a v p w =
    (Returned tt, upserted p (Row g a v) w).
Proof. apply update_current_version_ok, faultless_healthy, Hdb. Qed.

(** [check_for_new_version] on a healthy store: one reading of the store,
    one request, and the decision of lines 80-84. *)
Lemma check_for_new_version_healthy g a w :
  check_for_new_version E g a w =
    (Returned (decided (latest_of (reply E g a w))
                 (stored_version g a default_db w)),
     fetched E g a (consulted default_db w)).
Proof.
  unfold check_for_new_version, bind, decided.
  rewrite get_current_version_healthy, get_latest_version_eq.
  rewrite reply_consulted. simpl.
  repeat match goal with |- context [if ?b then _ else _] =>
    destruct b end; reflexivity.
Qed.

(** The three ways through the body of the loop. *)
Lemma main_body_new_version g a w v :
  decided (latest_of (reply E g a w)) (stored_version g a default_db w)
    = Some v ->
  main_body E g a w =
    (Returned tt,
     emit (body_text g a (Some v) (Some v))
       (emit (subject_line g a)
          (consulted default_db
             (upserted default_db (Row g a (Some v))
                (emit ("- New version available for " ++ g ++ ":" ++ a
                         ++ ": " ++ v)
                   (fetched E g a (consulted default_db w))))))).
Proof.
  intros Hnew. unfold main_body, bind at 1.
  rewrite check_for_new_version_healthy, Hnew.
  assert (Py.truthy (Some v) = true) as ->.
  { unfold decided in Hnew.
    repeat match type of Hnew with (if ?b then _ else _) = _ =>
      destruct b eqn:? end; try discriminate;
    rewrite Hnew in *; rewrite ?andb_true_iff in *; tauto. }
  unfold bind, print, modify.
  rewrite update_current_version_healthy, get_current_version_healthy.
  now rewrite stored_version_upserted.
Qed.

Lemma main_body_known g a w cur :
  decided (latest_of (reply E g a w)) (stored_version g a default_db w)
    = None ->
  stored_version g a default_db w = Some cur ->
  main_body E g a w =
    (Returned tt,
     consulted default_db
       (emit ("- No new version available for " ++ g ++ ":" ++ a ++ ".")
          (fetched E g a (consulted default_db w)))).
Proof.
  intros Hnew Hcur. unfold main_body, bind at 1.
  rewrite check_for_new_version_healthy, Hnew. simpl.
  unfold bind, print, modify.
  rewrite get_current_version_healthy.
  autorewrite with world. now rewrite Hcur.
Qed.

Lemma main_body_unknown g a w :
  decided (latest_of (reply E g a w)) (stored_version g a default_db w)
    = None ->
  stored_version g a default_db w = None ->
  let w1 :=
    consulted default_db
      (emit ("- No new version available for " ++ g ++ ":" ++ a ++ ".")
         (fetched E g a (consulted default_db w))) in
  let first_version := latest_of (reply E g a w1) in
  main_body E g a w =
    (Returned tt,
     emit ("- First version added to database for " ++ g ++ ":" ++ a ++ ": "
             ++ Py.str first_version)
       (upserted default_db (Row g a first_version) (fetched E g a w1))).
Proof.
  intros Hnew Hcur. unfold main_body, bind at 1.
  rewrite check_for_new_version_healthy, Hnew. simpl.
  unfold bind, print, modify.
  rewrite get_current_version_healthy.
  change (stored_version g a default_db (emit ?l ?x))
    with (stored_version g a default_db x).
  rewrite stored_version_fetched, stored_version_consulted, Hcur. simpl.
  rewrite get_latest_version_eq, update_current_version_healthy.
  reflexivity.
Qed.

End NoFault.

(** * The decision of the loop and the transitions of the specification *)

Section Decision.

Lemma truthy_nonempty s : Py.truthy (Some s) = nonempty s.
Proof. reflexivity. Qed.

(** On version strings that are not empty, [check_for_new_version] returns
    the version exactly for the transitions that call for a notification. *)
Lemma decided_announces cur r :
  not_blank cur = true ->
  not_blank (latest_of r) = true ->
  decided (latest_of r) cur = Spec.announces (Spec.transition cur r).
Proof.
  intros Hcur Hlatest. unfold decided.
  destruct r as [[v|]|e|e]; try reflexivity.
  cbn [latest_of not_blank] in Hlatest.
  cbn [latest_of Spec.transition]. rewrite truthy_nonempty, Hlatest.
  destruct cur as [c|]; [|reflexivity].
  cbn [not_blank] in Hcur. rewrite truthy_nonempty, Hcur.
  cbn [Py.ne andb]. rewrite String.eqb_sym.
  now destruct (String.eqb c v).
Qed.

Lemma decided_latest latest cur v :
  decided latest cur = Some v -> latest = Some v.
Proof.
  unfold decided.
  repeat match goal with |- context [if ?b then _ else _] =>
    destruct b end; congruence.
Qed.

(** A new version is never [None] nor the empty string. *)
Lemma decided_truthy latest cur v :
  decided latest cur = Some v -> Py.truthy (Some v) = true.
Proof.
  intros Hnew. pose proof (decided_latest _ _ _ Hnew) as ->.
  unfold decided in Hnew. destruct (Py.truthy (Some v)); [reflexivity|].
  discriminate.
Qed.

(** Without a new version, a resolved version is the stored one. *)
Lemma decided_none_resolved v cur :
  nonempty v = true ->
  not_blank cur = true ->
  decided (Some v) cur = None ->
  cur = Some v.
Proof.
  intros Hv Hcur. unfold decided. rewrite truthy_nonempty, Hv.
  destruct cur as [c|]; [|discriminate].
  cbn [not_blank] in Hcur. rewrite truthy_nonempty, Hcur.
  cbn [Py.ne andb Py.is_none].
  destruct (String.eqb v c) eqn:Heq; [|discriminate].
  apply String.eqb_eq in Heq. now subst.
Qed.

(** Against no stored version only a falsy resolved version is not new. *)
Lemma decided_unknown latest :
  decided latest None = None -> Py.truthy latest = false.
Proof.
  unfold decided. destruct (Py.truthy latest) eqn:Ht; simpl; [|reflexivity].
  intros ->. discriminate.
Qed.

(** Against a stored empty string nothing is new. *)
Lemma decided_blank latest : decided latest (Some "") = None.
Proof.
  unfold decided. cbn [Py.truthy Py.is_none String.eqb negb].
  now rewrite !andb_false_r.
Qed.

Lemma blank_is_empty s : nonempty s = false -> s = "".
Proof.
  unfold nonempty. intros H. apply negb_false_iff in H.
  now apply String.eqb_eq.
Qed.

End Decision.

(** * The store *)

(** C10, as stated for every database path, fails: on [":memory:"] the
    upsert and the get each work on a database of their own, so the get
    finds nothing; and a get that faults answers [None] after an upsert
    that completed. *)
Lemma round_trip_fails_on_private_database :
  ~ Required.round_trip (Scenario.answering (LatestText None) [])
      Scenario.fresh "org.example" "lib" "3.1.0" ":memory:" /\
  ~ Required.round_trip
      (Faults.statement_fault 1 2 (LatestText None))
      Scenario.fresh "org.example" "lib" "3.1.0" default_db.
Proof.
  split; intros H.
  - destruct H as [H _]; [intros k _; reflexivity|]. discriminate.
  - destruct H as [H _]; [intros k _; reflexivity|]. discriminate.
Qed.

(** C10 (amended; round trip of the store): on a path that names a
    database file, and on a table that satisfies its primary key, an upsert
    of a version string that meets no fault, followed by a get that meets
    none: the get returns that version, and the table holds one record for
    the key. *)
Theorem upsert_then_get E w g a v p :
  private p = false ->
  unique_keys (rows_at p w) ->
  faultless E (connections w) 3 ->
  faultless E (S (connections w)) 2 ->
  exists w1 w2,
    update_current_version_in_db E g a (Some v) p w = (Returned tt, w1) /\
    get_current_version_from_db E g a p w1 = (Returned (Some v), w2) /\
    records_for g a (rows_at p w1) = 1.
Proof.
  intros Hfile _ Hup Hget.
  rewrite update_current_version_ok by exact Hup.
  eexists _, _. split; [reflexivity|].
  rewrite get_current_version_ok.
  - rewrite stored_version_upserted, upserted_rows, records_for_replace_row
      by exact Hfile.
    split; reflexivity.
  - now rewrite upserted_connections.
Qed.

Lemma upsert_then_get_witness :
  exists w1 w2,
    update_current_version_in_db
      (Scenario.answering (LatestText None) []) "org.example" "lib"
      (Some "3.1.0") default_db (Scenario.tracking "org.example" "lib" "3.0")
      = (Returned tt, w1) /\
    get_current_version_from_db
      (Scenario.answering (LatestText None) []) "org.example" "lib"
      default_db w1 = (Returned (Some "3.1.0"), w2) /\
    records_for "org.example" "lib" (rows_at default_db w1) = 1.
Proof.
  apply (upsert_then_get (Scenario.answering (LatestText None) [])
           (Scenario.tracking "org.example" "lib" "3.0")
           "org.example" "lib" "3.1.0" default_db);
    [ reflexivity
    | intros g a;
      change (rows_at default_db (Scenario.tracking "org.example" "lib" "3.0"))
        with [Row "org.example" "lib" (Some "3.0")];
      unfold records_for; simpl; destruct (same_key g a _); simpl; lia
    | intros k _; reflexivity
    | intros k _; reflexivity ].
Defined.

(** * One artifact *)

Section Resolved.

Variable E : Env.
Hypothesis Hdb : healthy E.

(** After a request answered with a version, the store reads that
    version. *)
Lemma main_body_resolved g a w v :
  reply E g a w = LatestText (Some v) ->
  nonempty v = true ->
  not_blank (stored_version g a default_db w) = true ->
  exists w',
    main_body E g a w = (Returned tt, w') /\
    stored_version g a default_db w' = Some v.
Proof.
  intros Hreply Hv Hcur.
  destruct (decided (latest_of (reply E g a w))
              (stored_version g a default_db w)) as [v'|] eqn:Hnew.
  - pose proof (decided_latest _ _ _ Hnew) as Hl.
    rewrite Hreply in Hl; simpl in Hl. injection Hl as <-.
    rewrite (main_body_new_version E Hdb g a w v Hnew).
    eexists; split; [reflexivity|]. now autorewrite with world.
  - assert (stored_version g a default_db w = Some v) as Hstored.
    { apply decided_none_resolved; [exact Hv | exact Hcur |].
      now rewrite Hreply in Hnew. }
    rewrite (main_body_known E Hdb g a w v Hnew Hstored).
    eexists; split; [reflexivity|]. now autorewrite with world.
Qed.

Lemma decided_same v : decided (Some v) (Some v) = None.
Proof.
  unfold decided. cbn [Py.ne Py.is_none]. rewrite String.eqb_refl.
  cbn [negb]. now rewrite !andb_false_r.
Qed.

(** Without a new version, a store that reads a version for the artifact
    is left as it was. *)
Lemma main_body_known_keeps_store g a w cur :
  decided (latest_of (reply E g a w)) (stored_version g a default_db w)
    = None ->
  stored_version g a default_db w = Some cur ->
  exists w1 w',
    check_for_new_version E g a w = (Returned None, w1) /\
    main_body E g a w = (Returned tt, w') /\
    replaced w' = replaced w /\
    files w' = files w.
Proof.
  intros Hnew Hstored.
  rewrite (check_for_new_version_healthy E Hdb), Hnew.
  rewrite (main_body_known E Hdb g a w cur Hnew Hstored).
  eexists _, _. repeat split.
  - now autorewrite with world.
  - rewrite (consulted_files _ _ (rows_at default_db w)).
    + autorewrite with world.
      apply (consulted_files _ _ (rows_at default_db w)).
      now apply (stored_version_table g a default_db w cur).
    + autorewrite with world.
      rewrite (consulted_files _ _ (rows_at default_db w));
        now apply (stored_version_table g a default_db w cur).
Qed.

(** A run on a store that already reads the resolved version writes
    nothing. *)
Lemma main_body_same g a w v :
  reply E g a w = LatestText (Some v) ->
  stored_version g a default_db w = Some v ->
  exists w1 w',
    check_for_new_version E g a w = (Returned None, w1) /\
    main_body E g a w = (Returned tt, w') /\
    replaced w' = replaced w /\
    files w' = files w.
Proof.
  intros Hreply Hstored.
  apply (main_body_known_keeps_store g a w v); [|exact Hstored].
  rewrite Hreply, Hstored. apply decided_same.
Qed.

(** A failed resolution leaves a store that reads a version for the
    artifact as it was: the baseline is kept. *)
Lemma failed_resolution_keeps_baseline g a w cur :
  latest_of (reply E g a w) = None ->
  stored_version g a default_db w = Some cur ->
  exists w',
    main_body E g a w = (Returned tt, w') /\
    replaced w' = replaced w /\
    files w' = files w.
Proof.
  intros Hfail Hstored.
  destruct (main_body_known_keeps_store g a w cur) as (_ & w' & _ & H);
    [now rewrite Hfail | exact Hstored | now exists w'].
Qed.

End Resolved.

(** C2, as stated for every prior state, fails: when the commit of the new
    version faults the store keeps the old one, and a stored empty string,
    which is falsy without being [None], is never replaced. *)
Lemma resolved_version_is_not_always_persisted :
  ~ Required.write_through
      (Faults.statement_fault 1 3 (LatestText (Some "3.1.0")))
      (Scenario.tracking "org.example" "lib" "3.0") "org.example" "lib" /\
  ~ Required.write_through
      (Scenario.answering (LatestText (Some "3.1.0")) [Scenario.lib])
      (Scenario.tracking "org.example" "lib" "") "org.example" "lib".
Proof.
  split; intros H; specialize (H "3.1.0" eq_refl); discriminate.
Qed.

(** C2 (amended; write-through baseline): on a store whose calls meet no
    fault and that does not hold the empty string for the artifact, when the
    request for the artifact is answered with a version (a string that is
    not empty), the body of the loop returns and the store then holds a
    record for the artifact whose version is the resolved one, whether no
    record, another version or the same version was held before. *)
Theorem resolved_version_is_persisted E w g a v :
  healthy E ->
  reply E g a w = LatestText (Some v) ->
  nonempty v = true ->
  not_blank (stored_version g a default_db w) = true ->
  exists w',
    main_body E g a w = (Returned tt, w') /\
    select_version g a (rows_at default_db w') = Some (Some v).
Proof.
  intros Hdb Hreply Hv Hcur.
  destruct (main_body_resolved E Hdb g a w v Hreply Hv Hcur)
    as (w' & Hrun & Hw').
  exists w'. split; [exact Hrun | now apply stored_version_some].
Qed.

Lemma resolved_version_is_persisted_witness :
  exists w',
    main_body (Scenario.answering (LatestText (Some "3.1.0")) [Scenario.lib])
      "org.example" "lib" (Scenario.tracking "org.example" "lib" "3.0")
      = (Returned tt, w') /\
    select_version "org.example" "lib" (rows_at default_db w')
      = Some (Some "3.1.0").
Proof.
  apply (resolved_version_is_persisted
           (Scenario.answering (LatestText (Some "3.1.0")) [Scenario.lib])
           (Scenario.tracking "org.example" "lib" "3.0")
           "org.example" "lib" "3.1.0");
    [intros c; reflexivity | reflexivity | reflexivity | reflexivity].
Defined.

(** * What a run of the body prints and requests *)

Section Traces.

Variable E : Env.
Hypothesis Hdb : healthy E.

Lemma printed_app w w' (l : list string) :
  stdout w' = (stdout w ++ l)%list -> printed w w' = l.
Proof. intros H. unfold printed. rewrite H. apply drop_app_length. Qed.

Lemma requested_app w w' (l : list string) :
  requests w' = (requests w ++ l)%list -> requested w w' = l.
Proof. intros H. unfold requested. rewrite H. apply drop_app_length. Qed.

(** A new version is decided only on a reply that carries it. *)
Lemma decided_complaint g a w v :
  decided (latest_of (reply E g a w)) (stored_version g a default_db w)
    = Some v ->
  complaint (reply E g a w) = [].
Proof.
  intros Hnew. apply decided_latest in Hnew.
  now destruct (reply E g a w).
Qed.

Lemma printed_new_version g a w v :
  decided (latest_of (reply E g a w)) (stored_version g a default_db w)
    = Some v ->
  printed w (snd (main_body E g a w)) =
    [new_version_line g a v; subject_line g a;
     body_text g a (Some v) (Some v)].
Proof.
  intros Hnew. rewrite (main_body_new_version E Hdb g a w v Hnew).
  apply printed_app. cbn [snd]. autorewrite with world.
  rewrite (decided_complaint g a w v Hnew).
  now rewrite <- !app_assoc.
Qed.

Lemma printed_known g a w cur :
  decided (latest_of (reply E g a w)) (stored_version g a default_db w)
    = None ->
  stored_version g a default_db w = Some cur ->
  printed w (snd (main_body E g a w)) =
    (complaint (reply E g a w) ++ [no_new_version_line g a])%list.
Proof.
  intros Hnew Hcur. rewrite (main_body_known E Hdb g a w cur Hnew Hcur).
  apply printed_app. cbn [snd]. autorewrite with world.
  now rewrite <- !app_assoc.
Qed.

Lemma printed_unknown g a w :
  decided (latest_of (reply E g a w)) (stored_version g a default_db w)
    = None ->
  stored_version g a default_db w = None ->
  exists second : fetch_result,
    printed w (snd (main_body E g a w)) =
      (complaint (reply E g a w) ++ [no_new_version_line g a]
         ++ complaint second
         ++ [first_version_line g a (latest_of second)])%list.
Proof.
  intros Hnew Hcur. rewrite (main_body_unknown E Hdb g a w Hnew Hcur).
  eexists. apply printed_app. cbn [snd]. autorewrite with world.
  rewrite <- !app_assoc. reflexivity.
Qed.

Lemma requested_new_version g a w v :
  decided (latest_of (reply E g a w)) (stored_version g a default_db w)
    = Some v ->
  requested w (snd (main_body E g a w)) = [metadata_url g a].
Proof.
  intros Hnew. rewrite (main_body_new_version E Hdb g a w v Hnew).
  apply requested_app. cbn [snd]. now autorewrite with world.
Qed.

Lemma requested_known g a w cur :
  decided (latest_of (reply E g a w)) (stored_version g a default_db w)
    = None ->
  stored_version g a default_db w = Some cur ->
  requested w (snd (main_body E g a w)) = [metadata_url g a].
Proof.
  intros Hnew Hcur. rewrite (main_body_known E Hdb g a w cur Hnew Hcur).
  apply requested_app. cbn [snd]. now autorewrite with world.
Qed.

Lemma requested_unknown g a w :
  decided (latest_of (reply E g a w)) (stored_version g a default_db w)
    = None ->
  stored_version g a default_db w = None ->
  requested w (snd (main_body E g a w))
    = [metadata_url g a; metadata_url g a].
Proof.
  intros Hnew Hcur. rewrite (main_body_unknown E Hdb g a w Hnew Hcur).
  apply requested_app. cbn [snd]. autorewrite with world.
  now rewrite <- !app_assoc.
Qed.

End Traces.

(** * Requests *)

(** C6, as the specification states it, fails: an artifact the store does
    not know and whose request times out is requested a second time. *)
Lemma unknown_artifact_is_requested_twice :
  ~ Required.single_attempt
      (Scenario.answering (RequestException "timed out") [Scenario.lib])
      Scenario.fresh "org.example" "lib".
Proof. unfold Required.single_attempt. vm_compute. discriminate. Qed.

(** C6 (amended): on a healthy store the body of the loop requests the
    metadata of the artifact once, except when the first request yields no
    version and the store holds no version for the artifact: then it
    requests them exactly once more. *)
Theorem at_most_one_retry E w g a :
  healthy E ->
  requested w (snd (main_body E g a w)) =
    if negb (Py.truthy (latest_of (reply E g a w)))
       && Py.is_none (stored_version g a default_db w)
    then [metadata_url g a; metadata_url g a]
    else [metadata_url g a].
Proof.
  intros Hdb.
  destruct (decided (latest_of (reply E g a w))
              (stored_version g a default_db w)) as [v|] eqn:Hnew.
  - rewrite (requested_new_version E Hdb g a w v Hnew).
    rewrite (decided_latest _ _ _ Hnew).
    now rewrite (decided_truthy _ _ _ Hnew).
  - destruct (stored_version g a default_db w) as [cur|] eqn:Hcur;
      pose proof Hnew as Hnone; rewrite <- Hcur in Hnew at 1.
    + rewrite (requested_known E Hdb g a w cur Hnew Hcur).
      now rewrite andb_false_r.
    + rewrite (requested_unknown E Hdb g a w Hnew Hcur).
      now rewrite (decided_unknown _ Hnone).
Qed.

Lemma at_most_one_retry_witness :
  requested Scenario.fresh
    (snd (main_body
            (Scenario.answering (RequestException "timed out") [Scenario.lib])
            "org.example" "lib" Scenario.fresh))
  = [Scenario.lib_url; Scenario.lib_url].
Proof.
  exact (at_most_one_retry
           (Scenario.answering (RequestException "timed out") [Scenario.lib])
           Scenario.fresh "org.example" "lib" (fun c => eq_refl)).
Defined.

(** * Two runs *)

(** C7, as stated for every run, fails: when the second run cannot read the
    baseline (here the SELECT of its first connection faults), the version
    the first run stored is returned as new once more. *)
Lemma second_run_after_read_fault_finds_new_version :
  ~ Required.idempotent
      (Faults.statement_fault 3 2 (LatestText (Some "3.1.0")))
      Scenario.fresh "org.example" "lib" "3.1.0".
Proof.
  intros H. destruct (H (fun _ => eq_refl)) as [Hcheck _].
  vm_compute in Hcheck. discriminate.
Qed.

(** After a first run against a remote that answers [v], the store reads a
    version against which [v] is not new. *)
Lemma first_run_settles E g a v w :
  healthy E ->
  (forall n, remote E n (metadata_url g a) = LatestText (Some v)) ->
  exists cur w1,
    main_body E g a w = (Returned tt, w1) /\
    stored_version g a default_db w1 = Some cur /\
    decided (Some v) (Some cur) = None /\
    (nonempty v = true ->
     not_blank (stored_version g a default_db w) = true -> cur = v).
Proof.
  intros Hdb Hremote.
  assert (forall w0, reply E g a w0 = LatestText (Some v)) as Hreply
    by (intros w0; apply Hremote).
  destruct (decided (latest_of (reply E g a w))
              (stored_version g a default_db w)) as [v'|] eqn:Hnew.
  - pose proof (decided_latest _ _ _ Hnew) as Hl.
    rewrite Hreply in Hl; simpl in Hl. injection Hl as <-.
    rewrite (main_body_new_version E Hdb g a w v Hnew).
    exists v. eexists. split; [reflexivity|].
    split; [now autorewrite with world|].
    split; [apply decided_same | reflexivity].
  - destruct (stored_version g a default_db w) as [cur|] eqn:Hcur;
      pose proof Hnew as Hnone; rewrite <- Hcur in Hnew at 1.
    + rewrite (main_body_known E Hdb g a w cur Hnew Hcur).
      exists cur. eexists. split; [reflexivity|].
      split; [now autorewrite with world|].
      rewrite Hreply in Hnone. simpl in Hnone.
      split; [exact Hnone|].
      intros Hv Hblank.
      pose proof (decided_none_resolved v (Some cur) Hv Hblank Hnone) as Heq.
      now injection Heq.
    + rewrite (main_body_unknown E Hdb g a w Hnew Hcur). cbv zeta.
      rewrite Hreply. cbn [latest_of].
      exists v. eexists. split; [reflexivity|].
      split; [now autorewrite with world|].
      split; [apply decided_same | reflexivity].
Qed.

(** C7 (amended; idempotence): on a store whose calls meet no fault and
    with a remote that keeps answering the same version, the body of the
    loop returns, and a second run of it finds no new version
    ([check_for_new_version] returns [None]), commits no REPLACE and leaves
    the database files as the first run left them; when moreover the
    version is not the empty string and the store did not hold the empty
    string for the artifact, the second run meets the transition
    unchanged. *)
Theorem second_run_changes_nothing E w g a v :
  healthy E ->
  (forall n, remote E n (metadata_url g a) = LatestText (Some v)) ->
  exists w1 w1' w2,
    main_body E g a w = (Returned tt, w1) /\
    check_for_new_version E g a w1 = (Returned None, w1') /\
    main_body E g a w1 = (Returned tt, w2) /\
    replaced w2 = replaced w1 /\
    files w2 = files w1 /\
    (nonempty v = true ->
     not_blank (stored_version g a default_db w) = true ->
     Spec.transition (stored_version g a default_db w1) (reply E g a w1)
       = Spec.Unchanged v).
Proof.
  intros Hdb Hremote.
  destruct (first_run_settles E g a v w Hdb Hremote)
    as (cur & w1 & Hrun1 & Hstored & Hnone & Hsame).
  destruct (main_body_known_keeps_store E Hdb g a w1 cur)
    as (w1' & w2 & Hcheck & Hrun2 & Hreplaced & Hfiles).
  { unfold reply. now rewrite Hremote, Hstored. }
  { exact Hstored. }
  exists w1, w1', w2. repeat split; try assumption.
  intros Hv Hblank. rewrite (Hsame Hv Hblank) in Hstored.
  unfold reply. rewrite Hremote, Hstored. simpl.
  now rewrite String.eqb_refl.
Qed.

Lemma second_run_changes_nothing_witness :
  exists w1 w1' w2,
    main_body (Scenario.answering (LatestText (Some "3.1.0")) [Scenario.lib])
      "org.example" "lib" Scenario.fresh = (Returned tt, w1) /\
    check_for_new_version
      (Scenario.answering (LatestText (Some "3.1.0")) [Scenario.lib])
      "org.example" "lib" w1 = (Returned None, w1') /\
    main_body (Scenario.answering (LatestText (Some "3.1.0")) [Scenario.lib])
      "org.example" "lib" w1 = (Returned tt, w2) /\
    replaced w2 = replaced w1 /\
    files w2 = files w1 /\
    (nonempty "3.1.0" = true ->
     not_blank (stored_version "org.example" "lib" default_db Scenario.fresh)
       = true ->
     Spec.transition (stored_version "org.example" "lib" default_db w1)
       (reply (Scenario.answering (LatestText (Some "3.1.0")) [Scenario.lib])
          "org.example" "lib" w1)
       = Spec.Unchanged "3.1.0").
Proof.
  apply (second_run_changes_nothing
           (Scenario.answering (LatestText (Some "3.1.0")) [Scenario.lib])
           Scenario.fresh "org.example" "lib" "3.1.0");
    [intros c; reflexivity | intros n; reflexivity].
Defined.

(** * Notifications *)

Section Notifications.

Variable E : Env.
Hypothesis Hdb : healthy E.

(** On a healthy store the body of the loop returns, and sends nothing to
    SES. *)
Lemma main_body_returns g a w :
  exists w',
    main_body E g a w = (Returned tt, w') /\
    ses_requests w' = ses_requests w.
Proof.
  destruct (decided (latest_of (reply E g a w))
              (stored_version g a default_db w)) as [v|] eqn:Hnew.
  - rewrite (main_body_new_version E Hdb g a w v Hnew).
    eexists; split; [reflexivity | now autorewrite with world].
  - destruct (stored_version g a default_db w) as [cur|] eqn:Hcur;
      rewrite <- Hcur in Hnew at 1.
    + rewrite (main_body_known E Hdb g a w cur Hnew Hcur).
      eexists; split; [reflexivity | now autorewrite with world].
    + rewrite (main_body_unknown E Hdb g a w Hnew Hcur).
      eexists; split; [reflexivity | now autorewrite with world].
Qed.

(** Without a new version, neither a subject nor a body is printed. *)
Lemma printed_without_notification g a w :
  decided (latest_of (reply E g a w)) (stored_version g a default_db w)
    = None ->
  ~ In (subject_line g a) (printed w (snd (main_body E g a w))) /\
  forall v rest,
    ~ In ("A new version (" ++ v ++ rest)
        (printed w (snd (main_body E g a w))).
Proof.
  intros Hnew.
  destruct (stored_version g a default_db w) as [cur|] eqn:Hcur;
    rewrite <- Hcur in Hnew at 1.
  - rewrite (printed_known E Hdb g a w cur Hnew Hcur).
    generalize (reply E g a w) as r. clear. intros r.
    split; [|intros v rest]; distinct_lines.
  - destruct (printed_unknown E Hdb g a w Hnew Hcur) as [second ->].
    generalize (reply E g a w) as r. clear. intros r.
    split; [|intros v rest]; distinct_lines.
Qed.

End Notifications.

(** * Reports *)

(** C5, as the specification states it, fails: metadata whose [<latest>]
    element is empty give no version, and the artifact is then reported
    exactly as an artifact whose version did not change. *)
Lemma empty_latest_is_reported_as_unchanged :
  ~ Required.failure_told_apart
      (Scenario.answering (LatestText None) [Scenario.lib])
      (Scenario.answering (LatestText (Some "1.0")) [Scenario.lib])
      (Scenario.tracking "org.example" "lib" "1.0") "org.example" "lib".
Proof.
  intros H. apply (H "latest version absent" "1.0"); reflexivity.
Qed.

(** A request that times out prints its reason, and the artifact is then
    reported by the line of an unchanged artifact; the engine returns
    [None] for both. *)
Example timed_out_request_report :
  Required.report
    (Scenario.answering (RequestException "timed out") [Scenario.lib])
    (Scenario.tracking "org.example" "lib" "1.0") "org.example" "lib"
  = (Returned None,
     ["Error fetching metadata: timed out";
      "- No new version available for org.example:lib."]) /\
  Required.report
    (Scenario.answering (LatestText (Some "1.0")) [Scenario.lib])
    (Scenario.tracking "org.example" "lib" "1.0") "org.example" "lib"
  = (Returned None, ["- No new version available for org.example:lib."]).
Proof. split; reflexivity. Qed.

(** C5 (amended): on a store whose calls meet no fault, and when neither
    the stored nor the resolved version is the empty string, the engine
    produces one of two outcomes, the new version for a first-seen or
    upgraded artifact and [None] for an unchanged or failed one, and [main]
    reports the artifact with exactly one of two lines accordingly; a
    request or a parse that raised has its reason printed, in a line of its
    own, before the line that reports the artifact. *)
Theorem outcome_is_new_version_or_none E w g a :
  healthy E ->
  not_blank (stored_version g a default_db w) = true ->
  not_blank (latest_of (reply E g a w)) = true ->
  exists w1 w' rest,
    check_for_new_version E g a w =
      (Returned
         (Spec.announces
            (Spec.transition (stored_version g a default_db w)
               (reply E g a w))), w1) /\
    main_body E g a w = (Returned tt, w') /\
    match Spec.announces
            (Spec.transition (stored_version g a default_db w)
               (reply E g a w)) with
    | Some v =>
        printed w w' =
          (complaint (reply E g a w) ++ new_version_line g a v :: rest)%list /\
        ~ In (new_version_line g a v) rest /\
        ~ In (no_new_version_line g a) (printed w w')
    | None =>
        printed w w' =
          (complaint (reply E g a w) ++ no_new_version_line g a :: rest)%list /\
        ~ In (no_new_version_line g a) rest /\
        forall v, ~ In (new_version_line g a v) (printed w w')
    end.
Proof.
  intros Hdb Hcur Hlatest.
  destruct (main_body_returns E Hdb g a w) as (w' & Hrun & _).
  assert (main_body E g a w = (Returned tt, snd (main_body E g a w)))
    as Hrun' by now rewrite Hrun.
  clear w' Hrun.
  rewrite (check_for_new_version_healthy E Hdb).
  rewrite <- (decided_announces _ _ Hcur Hlatest).
  clear Hcur Hlatest.
  destruct (decided (latest_of (reply E g a w))
              (stored_version g a default_db w)) as [v|] eqn:Hnew.
  - exists (fetched E g a (consulted default_db w)),
      (snd (main_body E g a w)),
      [subject_line g a; body_text g a (Some v) (Some v)].
    split; [reflexivity|]. split; [exact Hrun'|].
    rewrite (printed_new_version E Hdb g a w v Hnew).
    rewrite (decided_complaint E g a w v Hnew).
    repeat split; distinct_lines.
  - destruct (stored_version g a default_db w) as [cur|] eqn:Hcur;
      rewrite <- Hcur in Hnew at 1.
    + exists (fetched E g a (consulted default_db w)),
        (snd (main_body E g a w)), [].
      split; [reflexivity|]. split; [exact Hrun'|].
      rewrite (printed_known E Hdb g a w cur Hnew Hcur).
      generalize (reply E g a w) as r. clear. intros r.
      repeat split; [intros [] | intros v; distinct_lines].
    + destruct (printed_unknown E Hdb g a w Hnew Hcur) as [second Hprinted].
      exists (fetched E g a (consulted default_db w)),
        (snd (main_body E g a w)),
        (complaint second ++ [first_version_line g a (latest_of second)])%list.
      split; [reflexivity|]. split; [exact Hrun'|].
      rewrite Hprinted.
      generalize (reply E g a w) as r. clear. intros r.
      repeat split; [distinct_lines | intros v; distinct_lines].
Qed.

Lemma outcome_is_new_version_or_none_witness :
  exists w1 w' rest,
    check_for_new_version
      (Scenario.answering (RequestException "timed out") [Scenario.lib])
      "org.example" "lib" (Scenario.tracking "org.example" "lib" "1.0")
      = (Returned None, w1) /\
    main_body
      (Scenario.answering (RequestException "timed out") [Scenario.lib])
      "org.example" "lib" (Scenario.tracking "org.example" "lib" "1.0")
      = (Returned tt, w') /\
    (printed (Scenario.tracking "org.example" "lib" "1.0") w' =
       (["Error fetching metadata: timed out"]
          ++ "- No new version available for org.example:lib." :: rest)%list /\
     ~ In "- No new version available for org.example:lib." rest /\
     forall v,
       ~ In (new_version_line "org.example" "lib" v)
           (printed (Scenario.tracking "org.example" "lib" "1.0") w')).
Proof.
  exact (outcome_is_new_version_or_none
           (Scenario.answering (RequestException "timed out") [Scenario.lib])
           (Scenario.tracking "org.example" "lib" "1.0") "org.example" "lib"
           (fun c => eq_refl) eq_refl eq_refl).
Defined.

(** * Where the program departs from the specification *)

(** C1 (failing input): the store knows nothing of org.example:lib and both
    requests time out.  The second branch of the loop then stores what the
    second request returned, [None]: a record with a NULL version appears
    where there was none, and the next listing shows it. *)
Theorem failed_resolution_adds_null_record :
  let E := Scenario.answering (RequestException "timed out") [Scenario.lib] in
  let run := main_body E "org.example" "lib" Scenario.fresh in
  select_version "org.example" "lib" (rows_at default_db Scenario.fresh)
    = None /\
  fst run = Returned tt /\
  rows_at default_db (snd run) = [Row "org.example" "lib" None] /\
  replaced (snd run) = [(default_db, Row "org.example" "lib" None)] /\
  printed Scenario.fresh (snd run) =
    ["Error fetching metadata: timed out";
     "- No new version available for org.example:lib.";
     "Error fetching metadata: timed out";
     "- First version added to database for org.example:lib: None"] /\
  printed (snd run) (snd (print_current_versions E default_db (snd run))) =
    ["Current Artifact Versions:"; "- org.example:lib - None"; ""].
Proof. repeat split. Qed.

(** The same holds of every artifact for which the store reads no version
    and resolution fails twice. *)
Lemma failed_resolution_writes_null E g a w :
  healthy E ->
  (forall n, latest_of (remote E n (metadata_url g a)) = None) ->
  stored_version g a default_db w = None ->
  exists w',
    main_body E g a w = (Returned tt, w') /\
    rows_at default_db w' = replace_row (Row g a None) (rows_at default_db w).
Proof.
  intros Hdb Hfail Hcur.
  assert (decided (latest_of (reply E g a w))
            (stored_version g a default_db w) = None) as Hnew.
  { unfold reply. now rewrite Hfail. }
  rewrite (main_body_unknown E Hdb g a w Hnew Hcur).
  eexists; split; [reflexivity|].
  autorewrite with world. unfold reply. now rewrite Hfail.
Qed.

(** C4 (failing input): the store holds 1.0 for org.example:lib and the
    remote answers 2.0.  The body of the notification is built after the
    store was updated, and reads the previous version back from it: it
    gives 2.0 as the previous version. *)
Theorem previous_version_is_read_after_update :
  let E := Scenario.answering (LatestText (Some "2.0")) [Scenario.lib] in
  let w := Scenario.tracking "org.example" "lib" "1.0" in
  let run := main_body E "org.example" "lib" w in
  Spec.transition (stored_version "org.example" "lib" default_db w)
    (reply E "org.example" "lib" w) = Spec.Upgraded "1.0" "2.0" /\
  fst run = Returned tt /\
  printed w (snd run) =
    ["- New version available for org.example:lib: 2.0";
     "New Maven Artifact Version: org.example:lib";
     "A new version (2.0) of org.example:lib is available."
       ++ String "010" "Previous version: 2.0"].
Proof. repeat split. Qed.

(** C8 (failing input): on a database that has no table yet,
    [print_current_versions], which does not create the table, reports a
    database error instead of an empty listing. *)
Theorem listing_fails_without_table :
  let E := Scenario.answering (LatestText (Some "3.1.0")) [Scenario.lib] in
  let run := print_current_versions E default_db Scenario.fresh in
  fst run = Returned tt /\
  stdout (snd run) = ["Database error: no such table: versions"] /\
  files (snd run) = ∅.
Proof. repeat split. Qed.

(** The listing fails in this way on every database without the table. *)
Lemma print_current_versions_no_table E p w :
  faultless E (connections w) 1 ->
  files w !! p = None ->
  print_current_versions E p w =
    (Returned tt,
     emit "Database error: no such table: versions" (open_connection w)).
Proof.
  intros H Hp.
  unfold print_current_versions, db_session, sqlite_call, bind.
  rewrite !H by lia. simpl. now rewrite Hp.
Qed.

(** [get] and [upsert] do create the table of a database file. *)
Lemma get_current_version_initializes E g a p w :
  private p = false ->
  faultless E (connections w) 2 ->
  files w !! p = None ->
  exists w',
    get_current_version_from_db E g a p w = (Returned None, w') /\
    files w' !! p = Some [].
Proof.
  intros Hfile H Hp. rewrite (get_current_version_ok E g a p w H).
  eexists; split.
  - unfold stored_version, rows_at. now rewrite Hp.
  - unfold consulted. rewrite create_table_lookup by exact Hfile.
    unfold rows_at; simpl. now rewrite Hp.
Qed.

Lemma update_current_version_initializes E g a v p w :
  private p = false ->
  faultless E (connections w) 3 ->
  files w !! p = None ->
  exists w',
    update_current_version_in_db E g a v p w = (Returned tt, w') /\
    files w' !! p = Some [Row g a v].
Proof.
  intros Hfile H Hp. rewrite (update_current_version_ok E g a v p w H).
  eexists; split; [reflexivity|].
  unfold upserted. rewrite log_commit_files.
  unfold write_rows. rewrite Hfile; simpl. rewrite lookup_insert_eq.
  unfold rows_at. now rewrite Hp.
Qed.

(** C9 (failing input): a catalog of three artifacts; the database cannot be
    opened when the second one is looked up.  The handler prints the error,
    the [finally] clause tests a variable that was never bound, and the
    exception leaves [main]: the third artifact is never requested. *)
Theorem unopenable_database_aborts_batch :
  let E := Scenario.unopenable_at 4
             [Scenario.lib; Scenario.core; Scenario.util] in
  let run := main E Scenario.fresh in
  fst run = Raised (UnboundLocalError "conn") /\
  requests (snd run) = [Scenario.lib_url] /\
  rows_at default_db (snd run) = [Row "org.example" "lib" (Some "3.1.0")] /\
  stdout (snd run) =
    ["Database error: no such table: versions"; "New Versions:";
     "- New version available for org.example:lib: 3.1.0";
     "New Maven Artifact Version: org.example:lib";
     "A new version (3.1.0) of org.example:lib is available."
       ++ String "010" "Previous version: 3.1.0";
     "Database error: unable to open database file"].
Proof. repeat split. Qed.

(** * What holds whatever the faults *)

Section Composition.

Context {A B : Type}.
Implicit Types (m : M A) (k : A -> M B).

Lemma returns_bind m k :
  returns m -> (forall a, returns (k a)) -> returns (bind m k).
Proof.
  intros Hm Hk w. unfold bind.
  destruct (Hm w) as (a & w1 & ->). apply Hk.
Qed.

Lemma preserves_bind {X} (obs : World -> X) m k :
  preserves obs m -> (forall a, preserves obs (k a)) ->
  preserves obs (bind m k).
Proof.
  intros Hm Hk w. unfold bind.
  specialize (Hm w). destruct (m w) as [[a|e] w1]; simpl in *.
  - now rewrite Hk.
  - exact Hm.
Qed.

Lemma requests_at_most_bind i j m k :
  requests_at_most i m -> (forall a, requests_at_most j (k a)) ->
  requests_at_most (i + j) (bind m k).
Proof.
  intros Hm Hk w. unfold bind.
  destruct (Hm w) as (l1 & Hl1 & Hn1).
  destruct (m w) as [[a|e] w1]; simpl in *.
  - destruct (Hk a w1) as (l2 & Hl2 & Hn2).
    exists (l1 ++ l2)%list. rewrite Hl2, Hl1, <- app_assoc.
    split; [reflexivity | rewrite length_app; lia].
  - exists l1. split; [exact Hl1 | lia].
Qed.

End Composition.

Lemma requests_at_most_weaken {A} i j (m : M A) :
  i <= j -> requests_at_most i m -> requests_at_most j m.
Proof.
  intros Hij Hm w. destruct (Hm w) as (l & Hl & Hn).
  exists l. split; [exact Hl | lia].
Qed.

Lemma requests_at_most_quiet {A} (m : M A) :
  preserves requests m -> requests_at_most 0 m.
Proof.
  intros Hm w. exists []. rewrite Hm, app_nil_r.
  split; [reflexivity | simpl; lia].
Qed.

Section AnyFault.

Variable E : Env.

(** An observation of the world that printing, opening a connection and
    touching the database files leave alone. *)
Variable X : Type.
Variable obs : World -> X.
Hypothesis obs_emit : forall l w, obs (emit l w) = obs w.
Hypothesis obs_open : forall w, obs (open_connection w) = obs w.
Hypothesis obs_files : forall f w, obs (set_files f w) = obs w.
Hypothesis obs_replace : forall p r w, obs (log_replace p r w) = obs w.

Lemma obs_create_table p w : obs (create_table p w) = obs w.
Proof.
  unfold create_table. destruct (private p); [reflexivity|].
  destruct (files w !! p); [reflexivity | apply obs_files].
Qed.

Lemma preserves_ret {A} (a : A) : preserves obs (ret a).
Proof. intros w. reflexivity. Qed.

Lemma preserves_print l : preserves obs (print l).
Proof. intros w. apply obs_emit. Qed.

Lemma preserves_sqlite_call {A} c k (m : M A) :
  preserves obs m -> preserves obs (sqlite_call E c k m).
Proof.
  intros Hm w. unfold sqlite_call.
  destruct (fault E c k); [reflexivity | apply Hm].
Qed.

Lemma preserves_db_session {A} (body : nat -> M A) (on_error : A) :
  (forall c, preserves obs (body c)) ->
  preserves obs (db_session E body on_error).
Proof.
  intros Hbody w. unfold db_session.
  destruct (fault E (connections w) 0); simpl.
  - now rewrite obs_emit, obs_open.
  - specialize (Hbody (connections w) (open_connection w)).
    destruct (body (connections w) (open_connection w)) as [[a|[e|x|x]] w1];
      simpl in *; rewrite ?obs_emit, Hbody; apply obs_open.
Qed.

Lemma preserves_get_current_version g a p :
  preserves obs (get_current_version_from_db E g a p).
Proof.
  apply preserves_db_session. intros c.
  apply preserves_bind; [|intros _]; apply preserves_sqlite_call.
  - intros w. apply obs_create_table.
  - intros w. now destruct (select_version g a (rows_at p w)).
Qed.

Lemma preserves_update_current_version g a v p :
  preserves obs (update_current_version_in_db E g a v p).
Proof.
  apply preserves_db_session. intros c.
  apply preserves_bind; [|intros _]; [apply preserves_sqlite_call|].
  - intros w. apply obs_create_table.
  - apply preserves_bind; [|intros pending]; apply preserves_sqlite_call.
    + intros w. reflexivity.
    + intros w. simpl. unfold log_commit, write_rows.
      destruct (private p); [reflexivity | now rewrite obs_replace, obs_files].
Qed.

Lemma preserves_print_current_versions p :
  preserves obs (print_current_versions E p).
Proof.
  apply preserves_db_session. intros c.
  apply preserves_bind; [|intros rows].
  - apply preserves_sqlite_call. intros w. now destruct (files w !! p).
  - apply preserves_bind; [|intros _; apply preserves_print].
    destruct rows as [|r rows]; [apply preserves_print|].
    apply preserves_bind; [apply preserves_print|intros _].
    intros w. simpl. rewrite <- (obs_emit (print_row r) w).
    generalize (emit (print_row r) w) as w0.
    induction rows as [|r' rows IH]; intros w0; simpl; [reflexivity|].
    rewrite IH. apply obs_emit.
Qed.

(** ... and that a request leaves alone as well. *)
Hypothesis obs_request : forall u w, obs (log_request u w) = obs w.

Lemma preserves_get_latest_version g a :
  preserves obs (get_latest_version E g a).
Proof.
  intros w. unfold get_latest_version.
  destruct (remote E _ _); simpl; now rewrite ?obs_emit, obs_request.
Qed.

Lemma preserves_check_for_new_version g a :
  preserves obs (check_for_new_version E g a).
Proof.
  unfold check_for_new_version.
  apply preserves_bind; [apply preserves_get_current_version | intros cur].
  apply preserves_bind; [apply preserves_get_latest_version | intros latest].
  repeat match goal with |- context [if ?b then _ else _] => destruct b end;
    apply preserves_ret.
Qed.

Lemma preserves_main_body g a : preserves obs (main_body E g a).
Proof.
  unfold main_body.
  apply preserves_bind; [apply preserves_check_for_new_version | intros new].
  destruct (Py.truthy new).
  - repeat (apply preserves_bind; [|intros ?]);
      first [ apply preserves_print
            | apply preserves_update_current_version
            | apply preserves_get_current_version ].
  - apply preserves_bind; [apply preserves_print | intros _].
    apply preserves_bind; [apply preserves_get_current_version | intros cur].
    destruct (Py.is_none cur); [|apply preserves_ret].
    repeat (apply preserves_bind; [|intros ?]);
      first [ apply preserves_print
            | apply preserves_update_current_version
            | apply preserves_get_latest_version ].
Qed.

Lemma preserves_main_for artifacts : preserves obs (main_for E artifacts).
Proof.
  induction artifacts as [|x rest IH]; simpl; [apply preserves_ret|].
  apply preserves_bind; [|intros _; exact IH].
  destruct (_ || _); [apply preserves_print | apply preserves_main_body].
Qed.

Lemma preserves_main : preserves obs (main E).
Proof.
  unfold main.
  apply preserves_bind; [apply preserves_print_current_versions | intros _].
  apply preserves_bind; [|intros artifacts].
  - unfold load_artifacts_from_json. destruct (artifacts_json E);
      try apply preserves_ret;
      (apply preserves_bind;
       [apply preserves_print | intros _; apply preserves_ret]).
  - destruct (negb _); [apply preserves_print|].
    apply preserves_bind; [apply preserves_print | intros _].
    apply preserves_main_for.
Qed.

End AnyFault.

(** * Notifications and the notification channel *)

(** C3, as the specification states it, fails: the call of [send_email] is
    commented out, and a first-seen artifact leaves the log of SES requests
    as it was. *)
Lemma first_seen_is_not_dispatched :
  ~ Required.one_dispatch_per_announcement
      (Scenario.answering (LatestText (Some "3.1.0")) [Scenario.lib])
      Scenario.fresh "org.example" "lib".
Proof.
  intros H. specialize (H "3.1.0" eq_refl). vm_compute in H. discriminate.
Qed.

(** C3 (amended): the body of the loop sends nothing to the notification
    channel, whatever the store and the remote do.  On a store whose calls
    meet no fault, and when neither the stored nor the resolved version is
    the empty string, it prints one notification for a first-seen or
    upgraded artifact, a subject naming group:name and a body that carries
    the resolved version, right after the line that reports the new
    version; for an unchanged or failed artifact it prints neither subject
    nor body. *)
Theorem notification_is_printed_not_sent E w g a :
  ses_requests (snd (main_body E g a w)) = ses_requests w /\
  (healthy E ->
   not_blank (stored_version g a default_db w) = true ->
   not_blank (latest_of (reply E g a w)) = true ->
   exists w',
     main_body E g a w = (Returned tt, w') /\
     match Spec.announces
             (Spec.transition (stored_version g a default_db w)
                (reply E g a w)) with
     | Some v =>
         exists body rest,
           printed w w' = [new_version_line g a v; subject_line g a; body] /\
           body = "A new version (" ++ v ++ rest
     | None =>
         ~ In (subject_line g a) (printed w w') /\
         forall v rest, ~ In ("A new version (" ++ v ++ rest) (printed w w')
     end).
Proof.
  split; [apply (preserves_main_body E _ ses_requests); reflexivity|].
  intros Hdb Hcur Hlatest.
  destruct (main_body_returns E Hdb g a w) as (w' & Hrun & _).
  exists w'. split; [exact Hrun|].
  rewrite <- (decided_announces _ _ Hcur Hlatest).
  replace w' with (snd (main_body E g a w)) by now rewrite Hrun.
  destruct (decided (latest_of (reply E g a w))
              (stored_version g a default_db w)) as [v|] eqn:Hnew.
  - rewrite (printed_new_version E Hdb g a w v Hnew).
    eexists _, _. split; reflexivity.
  - now apply printed_without_notification.
Qed.

Lemma notification_is_printed_not_sent_witness :
  ses_requests
    (snd (main_body
            (Scenario.answering (LatestText (Some "3.1.0")) [Scenario.lib])
            "org.example" "lib" Scenario.fresh)) = [] /\
  exists w',
    main_body (Scenario.answering (LatestText (Some "3.1.0")) [Scenario.lib])
      "org.example" "lib" Scenario.fresh = (Returned tt, w') /\
    exists body rest,
      printed Scenario.fresh w' =
        ["- New version available for org.example:lib: 3.1.0";
         "New Maven Artifact Version: org.example:lib"; body] /\
      body = "A new version (" ++ "3.1.0" ++ rest.
Proof.
  destruct (notification_is_printed_not_sent
              (Scenario.answering (LatestText (Some "3.1.0")) [Scenario.lib])
              Scenario.fresh "org.example" "lib") as [Hses Hprint].
  split; [exact Hses|].
  exact (Hprint (fun c => eq_refl) eq_refl eq_refl).
Defined.

(** With a client, [send_email] itself hands the message to it and
    returns, whatever SES replies; without one it raises and hands over
    nothing. *)
Lemma send_email_dispatches E sender receiver subject body w :
  ses_client E = None ->
  exists w',
    send_email E sender receiver subject body w = (Returned tt, w') /\
    ses_requests w'
      = (ses_requests w ++ [Email sender receiver subject body])%list.
Proof.
  intros Hclient. unfold send_email. rewrite Hclient.
  destruct (ses_reply E _); eexists; split; reflexivity.
Qed.

Lemma send_email_without_client E sender receiver subject body w e :
  ses_client E = Some e ->
  send_email E sender receiver subject body w = (Raised (BotoCoreError e), w).
Proof. intros Hclient. unfold send_email. now rewrite Hclient. Qed.

Section Attempts.

Variable E : Env.

Lemma quiet_get_current_version g a p :
  requests_at_most 0 (get_current_version_from_db E g a p).
Proof.
  apply requests_at_most_quiet.
  apply (preserves_get_current_version E _ requests); reflexivity.
Qed.

Lemma quiet_update_current_version g a v p :
  requests_at_most 0 (update_current_version_in_db E g a v p).
Proof.
  apply requests_at_most_quiet.
  apply (preserves_update_current_version E _ requests); reflexivity.
Qed.

Lemma quiet_print l : requests_at_most 0 (print l).
Proof. apply requests_at_most_quiet. intros w. reflexivity. Qed.

Lemma quiet_ret {A} (a : A) : requests_at_most 0 (ret a).
Proof. apply requests_at_most_quiet. intros w. reflexivity. Qed.

Lemma one_request_get_latest_version g a :
  requests_at_most 1 (get_latest_version E g a).
Proof.
  intros w. exists [metadata_url g a].
  rewrite get_latest_version_eq. cbn [snd]. rewrite fetched_requests.
  split; [reflexivity | simpl; lia].
Qed.

Lemma one_request_check_for_new_version g a :
  requests_at_most 1 (check_for_new_version E g a).
Proof.
  unfold check_for_new_version.
  apply (requests_at_most_bind 0 1); [apply quiet_get_current_version|].
  intros cur.
  apply (requests_at_most_bind 1 0); [apply one_request_get_latest_version|].
  intros latest.
  repeat match goal with |- context [if ?b then _ else _] => destruct b end;
    apply quiet_ret.
Qed.

(** Whatever the replies and the faults, the body of the loop makes at most
    two requests. *)
Lemma two_requests_main_body g a : requests_at_most 2 (main_body E g a).
Proof.
  unfold main_body.
  apply (requests_at_most_bind 1 1); [apply one_request_check_for_new_version|].
  intros new. destruct (Py.truthy new).
  - apply (requests_at_most_weaken 0); [lia|].
    repeat (apply (requests_at_most_bind 0 0); [|intros ?]);
      first [ apply quiet_print | apply quiet_update_current_version
            | apply quiet_get_current_version ].
  - apply (requests_at_most_bind 0 1); [apply quiet_print | intros _].
    apply (requests_at_most_bind 0 1);
      [apply quiet_get_current_version | intros cur].
    destruct (Py.is_none cur);
      [|apply (requests_at_most_weaken 0); [lia | apply quiet_ret]].
    apply (requests_at_most_bind 1 0);
      [apply one_request_get_latest_version | intros first_version].
    apply (requests_at_most_bind 0 0); [|intros _; apply quiet_print].
    apply quiet_update_current_version.
Qed.

End Attempts.

(** * A batch *)

Section Contained.

Variable E : Env.

(** Every connection can be opened; any later call may fault. *)
Hypothesis Hconnect : forall c, fault E c 0 = None.

Lemma returns_ret {A} (a : A) : returns (ret a).
Proof. intros w. now eexists _, _. Qed.

Lemma returns_print l : returns (print l).
Proof. intros w. now eexists _, _. Qed.

Lemma returns_get_latest_version g a : returns (get_latest_version E g a).
Proof. intros w. rewrite get_latest_version_eq. now eexists _, _. Qed.

Lemma returns_get_current_version g a p :
  returns (get_current_version_from_db E g a p).
Proof.
  intros w.
  unfold get_current_version_from_db, db_session, sqlite_call, bind, modify,
    raise.
  rewrite Hconnect.
  destruct (fault E (connections w) 1); [now eexists _, _|].
  destruct (fault E (connections w) 2); [now eexists _, _|].
  destruct (select_version g a _); now eexists _, _.
Qed.

Lemma returns_update_current_version g a v p :
  returns (update_current_version_in_db E g a v p).
Proof.
  intros w.
  unfold update_current_version_in_db, db_session, sqlite_call, bind, modify,
    raise.
  rewrite Hconnect.
  destruct (fault E (connections w) 1); [now eexists _, _|].
  destruct (fault E (connections w) 2); [now eexists _, _|].
  destruct (fault E (connections w) 3); now eexists _, _.
Qed.

Lemma returns_check_for_new_version g a :
  returns (check_for_new_version E g a).
Proof.
  unfold check_for_new_version.
  apply returns_bind; [apply returns_get_current_version | intros cur].
  apply returns_bind; [apply returns_get_latest_version | intros latest].
  repeat match goal with |- context [if ?b then _ else _] => destruct b end;
    apply returns_ret.
Qed.

(** No failed resolution and no fault of a statement leaves the body of the
    loop as an exception. *)
Lemma returns_main_body g a : returns (main_body E g a).
Proof.
  unfold main_body.
  apply returns_bind; [apply returns_check_for_new_version | intros new].
  destruct (Py.truthy new).
  - repeat (apply returns_bind; [|intros ?]);
      first [ apply returns_print
            | apply returns_update_current_version
            | apply returns_get_current_version ].
  - apply returns_bind; [apply returns_print | intros _].
    apply returns_bind; [apply returns_get_current_version | intros cur].
    destruct (Py.is_none cur); [|apply returns_ret].
    repeat (apply returns_bind; [|intros ?]);
      first [ apply returns_print
            | apply returns_update_current_version
            | apply returns_get_latest_version ].
Qed.

(** The loop goes through the whole catalog. *)
Lemma main_for_returns artifacts : returns (main_for E artifacts).
Proof.
  induction artifacts as [|x rest IH]; simpl; [apply returns_ret|].
  apply returns_bind; [|intros _; exact IH].
  destruct (_ || _); [apply returns_print | apply returns_main_body].
Qed.

End Contained.

(** A batch of three whose second artifact cannot be resolved: the first and
    the third are recorded, the record of the second is the one the store
    held, and the three were requested once each. *)
Example batch_of_three_isolates_failure :
  let E := Scenario.core_unreachable
             [Scenario.lib; Scenario.core; Scenario.util] in
  let run := main E (Scenario.tracking "org.example" "core" "0.9") in
  fst run = Returned tt /\
  rows_at default_db (snd run) =
    [Row "org.example" "core" (Some "0.9");
     Row "org.example" "lib" (Some "1.0");
     Row "org.example" "util" (Some "1.0")] /\
  length (requests (snd run)) = 3.
Proof. repeat split. Qed.

(** ** Records of other artifacts *)

Lemma same_key_eq g a r :
  same_key g a r = true <-> group_id r = g /\ artifact_id r = a.
Proof.
  unfold same_key. rewrite andb_true_iff, !String.eqb_eq. reflexivity.
Qed.

Lemma find_filter_implied {A} (f h : A -> bool) (l : list A) :
  (forall x, f x = true -> h x = true) ->
  List.find f (List.filter h l) = List.find f l.
Proof.
  intros Hfh. induction l as [|x l IH]; simpl; [reflexivity|].
  destruct (f x) eqn:Hf.
  - rewrite (Hfh x Hf). simpl. now rewrite Hf.
  - destruct (h x); simpl; [now rewrite Hf | exact IH].
Qed.

Lemma find_app_last {A} (f : A -> bool) (l : list A) (x : A) :
  f x = false -> List.find f (l ++ [x])%list = List.find f l.
Proof.
  intros Hx. induction l as [|y l IH]; simpl; [now rewrite Hx|].
  now destruct (f y).
Qed.

(** [REPLACE] of one key leaves what [SELECT] finds for another. *)
Lemma select_replace_other g a g' a' v rows :
  (g, a) <> (g', a') ->
  select_version g a (replace_row (Row g' a' v) rows)
    = select_version g a rows.
Proof.
  intros Hne. unfold select_version, replace_row; simpl.
  rewrite find_app_last, find_filter_implied; [reflexivity | |].
  - intros x Hx. apply negb_true_iff.
    destruct (same_key g' a' x) eqn:Hx'; [|reflexivity].
    apply same_key_eq in Hx, Hx'. destruct Hx, Hx'. congruence.
  - destruct (same_key g a (Row g' a' v)) eqn:Hk; [|reflexivity].
    apply same_key_eq in Hk; simpl in Hk. destruct Hk. congruence.
Qed.

Lemma stored_version_upserted_other g a g' a' v p w :
  (g, a) <> (g', a') ->
  stored_version g a p (upserted p (Row g' a' v) w) = stored_version g a p w.
Proof.
  intros Hne. destruct (private p) eqn:Hp.
  - now rewrite upserted_private.
  - unfold stored_version.
    now rewrite upserted_rows, select_replace_other.
Qed.

Section Batch.

Variable E : Env.
Hypothesis Hdb : healthy E.

(** The body of the loop for one artifact leaves the records of the
    others. *)
Lemma main_body_other g a g' a' w :
  (g, a) <> (g', a') ->
  exists w',
    main_body E g' a' w = (Returned tt, w') /\
    stored_version g a default_db w' = stored_version g a default_db w.
Proof.
  intros Hne.
  destruct (decided (latest_of (reply E g' a' w))
              (stored_version g' a' default_db w)) as [v|] eqn:Hnew.
  - rewrite (main_body_new_version E Hdb g' a' w v Hnew).
    eexists; split; [reflexivity|]. autorewrite with world.
    rewrite stored_version_upserted_other by exact Hne.
    now autorewrite with world.
  - destruct (stored_version g' a' default_db w) as [cur|] eqn:Hcur;
      rewrite <- Hcur in Hnew at 1.
    + rewrite (main_body_known E Hdb g' a' w cur Hnew Hcur).
      eexists; split; [reflexivity | now autorewrite with world].
    + rewrite (main_body_unknown E Hdb g' a' w Hnew Hcur).
      eexists; split; [reflexivity|]. autorewrite with world.
      rewrite stored_version_upserted_other by exact Hne.
      now autorewrite with world.
Qed.

(** The remote answers by URL, the same at every request, and never with an
    empty version string. *)
Variable answer : string -> fetch_result.
Hypothesis Hremote : forall n url, remote E n url = answer url.
Hypothesis Hanswer : forall url, not_blank (latest_of (answer url)) = true.

Lemma reply_answer g a w : reply E g a w = answer (metadata_url g a).
Proof. apply Hremote. Qed.

Lemma main_body_deterministic g a w w1 w2 :
  main_body E g a w = (Returned tt, w1) ->
  main_body E g a w = (Returned tt, w2) -> w1 = w2.
Proof. congruence. Qed.

(** What the body of the loop leaves in the store for its own artifact. *)
Lemma main_body_own g a w :
  not_blank (stored_version g a default_db w) = true ->
  exists w',
    main_body E g a w = (Returned tt, w') /\
    not_blank (stored_version g a default_db w') = true.
Proof.
  intros Hcur.
  destruct (decided (latest_of (reply E g a w))
              (stored_version g a default_db w)) as [v|] eqn:Hnew.
  - rewrite (main_body_new_version E Hdb g a w v Hnew).
    eexists; split; [reflexivity|]. autorewrite with world.
    apply (decided_truthy _ _ _ Hnew).
  - destruct (stored_version g a default_db w) as [cur|] eqn:Hstored;
      rewrite <- Hstored in Hnew at 1.
    + rewrite (main_body_known E Hdb g a w cur Hnew Hstored).
      eexists; split; [reflexivity|]. autorewrite with world.
      now rewrite Hstored.
    + rewrite (main_body_unknown E Hdb g a w Hnew Hstored).
      eexists; split; [reflexivity|]. autorewrite with world.
      rewrite reply_answer. apply Hanswer.
Qed.

Lemma main_body_blank_free g a w :
  blank_free w ->
  exists w', main_body E g a w = (Returned tt, w') /\ blank_free w'.
Proof.
  intros Hw.
  destruct (main_body_own g a w (Hw g a)) as (w' & Hrun & Hown).
  exists w'. split; [exact Hrun|]. intros g0 a0.
  destruct (decide ((g0, a0) = (g, a))) as [Heq|Hne].
  - injection Heq as -> ->. exact Hown.
  - destruct (main_body_other g0 a0 g a w Hne) as (w'' & Hrun' & Hsame).
    rewrite (main_body_deterministic g a w w' w'' Hrun Hrun'), Hsame.
    apply Hw.
Qed.

(** A record that needs no change, because resolution fails or gives the
    stored version, is still there after any artifact was processed. *)
Lemma main_body_settled g a c g' a' w :
  decided (latest_of (answer (metadata_url g a))) (Some c) = None ->
  stored_version g a default_db w = Some c ->
  exists w',
    main_body E g' a' w = (Returned tt, w') /\
    stored_version g a default_db w' = Some c.
Proof.
  intros Hsettled Hstored.
  destruct (decide ((g, a) = (g', a'))) as [Heq|Hne].
  - injection Heq as <- <-.
    destruct (main_body_known_keeps_store E Hdb g a w c)
      as (_ & w' & _ & Hrun & _ & Hfiles);
      [now rewrite reply_answer, Hstored | exact Hstored |].
    exists w'. split; [exact Hrun|].
    rewrite <- Hstored. unfold stored_version, rows_at. now rewrite Hfiles.
  - destruct (main_body_other g a g' a' w Hne) as (w' & Hrun & Hsame).
    exists w'. split; [exact Hrun | now rewrite Hsame].
Qed.

Lemma main_for_settled g a c artifacts : forall w,
  decided (latest_of (answer (metadata_url g a))) (Some c) = None ->
  stored_version g a default_db w = Some c ->
  exists w',
    main_for E artifacts w = (Returned tt, w') /\
    stored_version g a default_db w' = Some c.
Proof.
  induction artifacts as [|x rest IH]; intros w Hsettled Hstored.
  - now exists w.
  - cbn [main_for]. unfold bind at 1.
    destruct (_ || _).
    + apply (IH _ Hsettled). exact Hstored.
    + destruct (main_body_settled g a c
                  (Py.str (get_group_id x)) (Py.str (get_artifact_id x)) w
                  Hsettled Hstored) as (w1 & -> & Hw1).
      now apply IH.
Qed.

(** Failure isolation: on a healthy store the loop goes through the whole
    catalog; afterwards every artifact of the catalog that the remote
    resolves is recorded with its resolved version, and every baseline of an
    artifact that the remote fails to resolve is the one the store held. *)
Lemma main_for_isolates_failures artifacts : forall w,
  blank_free w ->
  exists w',
    main_for E artifacts w = (Returned tt, w') /\
    blank_free w' /\
    (forall g a v,
        In (Artifact (Some g) (Some a)) artifacts ->
        nonempty g = true -> nonempty a = true ->
        answer (metadata_url g a) = LatestText (Some v) ->
        stored_version g a default_db w' = Some v) /\
    (forall g a c,
        latest_of (answer (metadata_url g a)) = None ->
        stored_version g a default_db w = Some c ->
        stored_version g a default_db w' = Some c).
Proof.
  induction artifacts as [|x rest IH]; intros w Hw.
  - exists w. repeat split; [exact Hw | intros g a v [] | tauto].
  - cbn [main_for]. unfold bind at 1.
    destruct (negb (Py.truthy (get_group_id x))
              || negb (Py.truthy (get_artifact_id x))) eqn:Hskip.
    + set (warning := "Warning: Missing group_id or artifact_id in JSON.").
      destruct (IH (emit warning w) Hw)
        as (w' & Hrun & Hfree & Hres & Hfail).
      exists w'. repeat split; [exact Hrun | exact Hfree | | exact Hfail].
      intros g a v [->|Hin] Hg Ha Hv; [|now apply (Hres g a v)].
      cbn [get_group_id get_artifact_id] in Hskip.
      rewrite !truthy_nonempty, Hg, Ha in Hskip. discriminate.
    + destruct (main_body_blank_free
                  (Py.str (get_group_id x)) (Py.str (get_artifact_id x)) w Hw)
        as (w1 & Hrun1 & Hw1).
      rewrite Hrun1.
      destruct (IH w1 Hw1) as (w' & Hrun & Hfree & Hres & Hfail).
      exists w'. repeat split; [exact Hrun | exact Hfree | |].
      * intros g a v [->|Hin] Hg Ha Hv; [|now apply (Hres g a v)].
        cbn [get_group_id get_artifact_id Py.str] in Hrun1.
        destruct (main_body_resolved E Hdb g a w v) as (w1' & Hrun1' & Hstored).
        { now rewrite reply_answer. }
        { specialize (Hanswer (metadata_url g a)). now rewrite Hv in Hanswer. }
        { apply Hw. }
        rewrite (main_body_deterministic g a w w1' w1 Hrun1' Hrun1) in Hstored.
        destruct (main_for_settled g a v rest w1) as (w'' & Hrun' & Hdone);
          [rewrite Hv; apply decided_same | exact Hstored |].
        congruence.
      * intros g a c Hnone Hstored.
        destruct (main_body_settled g a c
                    (Py.str (get_group_id x)) (Py.str (get_artifact_id x)) w)
          as (w1' & Hrun1' & Hkept); [now rewrite Hnone | exact Hstored |].
        apply (Hfail g a c Hnone). congruence.
Qed.

End Batch.

(** * The scenario of the specification *)

(** Catalog [org.example:lib], empty store, the remote answers 3.1.0: the
    first run records 3.1.0 and prints one subject and one body; the second
    run reports no new version, prints no notification and commits no
    REPLACE.  Neither run sends an email. *)
Example first_seen_then_unchanged :
  let E := Scenario.answering (LatestText (Some "3.1.0")) [Scenario.lib] in
  let first := main E Scenario.fresh in
  let second := main E (snd first) in
  fst first = Returned tt /\
  stdout (snd first) =
    ["Database error: no such table: versions"; "New Versions:";
     "- New version available for org.example:lib: 3.1.0";
     "New Maven Artifact Version: org.example:lib";
     "A new version (3.1.0) of org.example:lib is available."
       ++ String "010" "Previous version: 3.1.0"] /\
  rows_at default_db (snd first) = [Row "org.example" "lib" (Some "3.1.0")] /\
  ses_requests (snd first) = [] /\
  fst second = Returned tt /\
  printed (snd first) (snd second) =
    ["Current Artifact Versions:"; "- org.example:lib - 3.1.0"; "";
     "New Versions:"; "- No new version available for org.example:lib."] /\
  files (snd second) = files (snd first) /\
  replaced (snd second) = replaced (snd first) /\
  ses_requests (snd second) = [].
Proof. repeat split. Qed.

(** * The database functions under any fault *)

Section Cases.

Variable E : Env.

Lemma rows_at_create_table q p w :
  rows_at q (create_table p w) = rows_at q w.
Proof.
  unfold create_table. destruct (private p); [reflexivity|].
  destruct (files w !! p) eqn:Hp; [reflexivity|].
  unfold rows_at; simpl.
  destruct (decide (p = q)) as [<-|Hne].
  - now rewrite lookup_insert_eq, Hp.
  - now rewrite lookup_insert_ne.
Qed.

Lemma rows_at_consulted q p w : rows_at q (consulted p w) = rows_at q w.
Proof. unfold consulted. now rewrite rows_at_create_table. Qed.

Lemma files_upserted_other q p r w :
  p <> q -> files (upserted p r w) !! q = files w !! q.
Proof.
  intros Hne. destruct (private p) eqn:Hp.
  - now rewrite upserted_private.
  - unfold upserted. rewrite log_commit_files.
    unfold write_rows. rewrite Hp. simpl.
    rewrite lookup_insert_ne by exact Hne.
    unfold create_table. rewrite Hp. simpl.
    destruct (files w !! p); simpl;
      [reflexivity | now rewrite lookup_insert_ne].
Qed.

Lemma files_consulted_other q p w :
  p <> q -> files (consulted p w) !! q = files w !! q.
Proof.
  intros Hne. unfold consulted, create_table. simpl.
  destruct (private p); [reflexivity|].
  destruct (files w !! p); simpl; [reflexivity | now rewrite lookup_insert_ne].
Qed.

(** The four ways through [get_current_version_from_db]. *)
Lemma get_current_version_cases g a p w :
  (exists e,
      fault E (connections w) 0 = Some e /\
      get_current_version_from_db E g a p w =
        (Raised (UnboundLocalError "conn"),
         emit ("Database error: " ++ e) (open_connection w))) \/
  (exists e,
      fault E (connections w) 0 = None /\
      fault E (connections w) 1 = Some e /\
      get_current_version_from_db E g a p w =
        (Returned None, emit ("Database error: " ++ e) (open_connection w))) \/
  (exists e,
      fault E (connections w) 0 = None /\
      fault E (connections w) 1 = None /\
      fault E (connections w) 2 = Some e /\
      get_current_version_from_db E g a p w =
        (Returned None, emit ("Database error: " ++ e) (consulted p w))) \/
  (fault E (connections w) 1 = None /\
   fault E (connections w) 2 = None /\
   get_current_version_from_db E g a p w =
     (Returned (stored_version g a p w), consulted p w)).
Proof.
  unfold get_current_version_from_db, db_session, sqlite_call, bind, modify,
    raise.
  destruct (fault E (connections w) 0) as [e|]; [left; now exists e|].
  destruct (fault E (connections w) 1) as [e|]; [right; left; now exists e|].
  destruct (fault E (connections w) 2) as [e|];
    [right; right; left; now exists e|].
  right; right; right. split; [reflexivity|]. split; [reflexivity|].
  rewrite create_table_rows. unfold stored_version, consulted.
  change (rows_at p (open_connection w)) with (rows_at p w).
  now destruct (select_version g a (rows_at p w)).
Qed.

(** The five ways through [update_current_version_in_db]. *)
Lemma update_current_version_cases g a v p w :
  (exists e,
      update_current_version_in_db E g a v p w =
        (Raised (UnboundLocalError "conn"),
         emit ("Database error: " ++ e) (open_connection w))) \/
  (exists e,
      update_current_version_in_db E g a v p w =
        (Returned tt, emit ("Database error: " ++ e) (open_connection w))) \/
  (exists e,
      update_current_version_in_db E g a v p w =
        (Returned tt, emit ("Database error: " ++ e) (consulted p w))) \/
  update_current_version_in_db E g a v p w =
    (Returned tt, upserted p (Row g a v) w).
Proof.
  unfold update_current_version_in_db, db_session, sqlite_call, bind, modify,
    raise.
  destruct (fault E (connections w) 0) as [e|]; [left; now exists e|].
  destruct (fault E (connections w) 1) as [e|]; [right; left; now exists e|].
  destruct (fault E (connections w) 2) as [e|];
    [right; right; left; now exists e|].
  destruct (fault E (connections w) 3) as [e|];
    [right; right; left; now exists e|].
  right; right; right. now rewrite create_table_rows.
Qed.

End Cases.

(** X2: reading the baseline never changes a row of any database, never
    commits a REPLACE and never makes a request, whatever faults. *)
Theorem get_current_version_reads_only E g a p w :
  let w' := snd (get_current_version_from_db E g a p w) in
  (forall q, rows_at q w' = rows_at q w) /\
  replaced w' = replaced w /\
  requests w' = requests w.
Proof.
  destruct (get_current_version_cases E g a p w)
    as [(e & _ & ->)|[(e & _ & _ & ->)|[(e & _ & _ & _ & ->)|(_ & _ & ->)]]];
    cbn [snd]; repeat split; intros;
    autorewrite with world; rewrite ?rows_at_consulted; reflexivity.
Qed.

(** X3: when a statement of the read faults, the caller gets [None], the
    answer for a missing record, and the error is only printed. *)
Theorem get_current_version_fault_reads_none E g a p w k e :
  (k = 1 \/ k = 2) ->
  sqlite_fault E (connections w) = Some (k, e) ->
  fst (get_current_version_from_db E g a p w) = Returned None /\
  printed w (snd (get_current_version_from_db E g a p w))
    = ["Database error: " ++ e].
Proof.
  intros Hk Hfault.
  assert (fault E (connections w) k = Some e) as Hat.
  { unfold fault. now rewrite Hfault, Nat.eqb_refl. }
  assert (forall j, j <> k -> fault E (connections w) j = None) as Hother.
  { intros j Hj. unfold fault. rewrite Hfault.
    destruct (Nat.eqb_spec k j); [congruence | reflexivity]. }
  destruct (get_current_version_cases E g a p w)
    as [(e' & H0 & _)|[(e' & _ & H1 & ->)|[(e' & _ & H1 & H2 & ->)
       |(H1 & H2 & _)]]].
  - rewrite Hother in H0 by lia. discriminate.
  - assert (k = 1) as -> by (destruct Hk as [->| ->];
      [reflexivity | rewrite Hother in H1 by lia; discriminate]).
    assert (e' = e) as -> by congruence.
    split; [reflexivity|]. apply printed_app. reflexivity.
  - assert (k = 2) as -> by (destruct Hk as [->| ->];
      [congruence | reflexivity]).
    assert (e' = e) as -> by congruence.
    split; [reflexivity|]. apply printed_app. cbn [snd].
    now autorewrite with world.
  - destruct Hk as [->| ->]; congruence.
Qed.

Lemma get_current_version_fault_reads_none_witness :
  fst (get_current_version_from_db
         (Faults.statement_fault 0 2 (LatestText (Some "3.1.0")))
         "org.example" "lib" default_db
         (Scenario.tracking "org.example" "lib" "3.0")) = Returned None /\
  printed (Scenario.tracking "org.example" "lib" "3.0")
    (snd (get_current_version_from_db
            (Faults.statement_fault 0 2 (LatestText (Some "3.1.0")))
            "org.example" "lib" default_db
            (Scenario.tracking "org.example" "lib" "3.0")))
    = ["Database error: disk I/O error"].
Proof.
  apply (get_current_version_fault_reads_none
           (Faults.statement_fault 0 2 (LatestText (Some "3.1.0")))
           "org.example" "lib" default_db
           (Scenario.tracking "org.example" "lib" "3.0") 2 "disk I/O error");
    [right; reflexivity | reflexivity].
Defined.

(** X4: an upsert is all or nothing: afterwards the table holds either the
    rows it held, with no REPLACE committed, or those rows with the record
    replaced, with exactly that REPLACE committed. *)
Theorem update_current_version_all_or_nothing E g a v p w :
  let w' := snd (update_current_version_in_db E g a v p w) in
  (rows_at p w' = rows_at p w /\ replaced w' = replaced w) \/
  (rows_at p w' = replace_row (Row g a v) (rows_at p w) /\
   replaced w' = (replaced w ++ [(p, Row g a v)])%list).
Proof.
  destruct (update_current_version_cases E g a v p w)
    as [(e & ->)|[(e & ->)|[(e & ->)| ->]]]; cbn [snd].
  - left. now split.
  - left. now split.
  - left. now autorewrite with world.
  - destruct (private p) eqn:Hp.
    + left. now rewrite upserted_private.
    + right. now autorewrite with world.
Qed.

(** X5: an upsert of one artifact leaves the record of every other
    artifact in that table as it was, whatever faults. *)
Theorem update_current_version_touches_one_record E g a v p w g' a' :
  (g', a') <> (g, a) ->
  select_version g' a'
    (rows_at p (snd (update_current_version_in_db E g a v p w)))
  = select_version g' a' (rows_at p w).
Proof.
  intros Hkey.
  destruct (update_current_version_cases E g a v p w)
    as [(e & ->)|[(e & ->)|[(e & ->)| ->]]]; cbn [snd].
  - reflexivity.
  - reflexivity.
  - now autorewrite with world.
  - destruct (private p) eqn:Hp.
    + now rewrite upserted_private.
    + now rewrite upserted_rows, select_replace_other.
Qed.

Lemma update_current_version_touches_one_record_witness :
  let w :=
    snd (update_current_version_in_db
           (Scenario.answering (LatestText None) []) "org.example" "core"
           (Some "0.9") default_db
           (Scenario.tracking "org.example" "lib" "1.0")) in
  select_version "org.example" "core"
    (rows_at default_db
       (snd (update_current_version_in_db
               (Scenario.answering (LatestText None) []) "org.example" "lib"
               (Some "1.1") default_db w)))
  = select_version "org.example" "core" (rows_at default_db w).
Proof.
  apply (update_current_version_touches_one_record
           (Scenario.answering (LatestText None) []) "org.example" "lib"
           (Some "1.1") default_db
           (snd (update_current_version_in_db
                   (Scenario.answering (LatestText None) [])
                   "org.example" "core" (Some "0.9") default_db
                   (Scenario.tracking "org.example" "lib" "1.0")))
           "org.example" "core").
  discriminate.
Defined.

(** ** The primary key *)

Lemma records_for_filter_le g a (f : row -> bool) rows :
  records_for g a (List.filter f rows) <= records_for g a rows.
Proof.
  unfold records_for.
  induction rows as [|r rows IH]; simpl; [lia|].
  destruct (f r); simpl; destruct (same_key g a r); simpl; lia.
Qed.

(** [REPLACE] keeps the primary key. *)
Lemma unique_keys_replace_row r rows :
  unique_keys rows -> unique_keys (replace_row r rows).
Proof.
  intros Hrows g a. destruct r as [g' a' v].
  destruct (same_key g a (Row g' a' v)) eqn:Hk.
  - apply same_key_eq in Hk; simpl in Hk. destruct Hk as [-> ->].
    now rewrite records_for_replace_row.
  - unfold replace_row. cbn [group_id artifact_id].
    unfold records_for at 1. rewrite List.filter_app, length_app.
    simpl. rewrite Hk. simpl.
    pose proof (records_for_filter_le g a
                  (fun r' => negb (same_key g' a' r')) rows) as Hle.
    unfold records_for in Hle at 1. rewrite Nat.add_0_r.
    exact (Nat.le_trans _ _ _ Hle (Hrows g a)).
Qed.

(** ** The last write wins *)

Lemma filter_negb_idempotent {A} (f : A -> bool) (l : list A) (x : A) :
  f x = true ->
  List.filter (fun y => negb (f y))
    (List.filter (fun y => negb (f y)) l ++ [x])%list
  = List.filter (fun y => negb (f y)) l.
Proof.
  intros Hx. rewrite List.filter_app. simpl. rewrite Hx. simpl.
  rewrite app_nil_r.
  induction l as [|y l IH]; simpl; [reflexivity|].
  destruct (f y) eqn:Hy; simpl; [exact IH | now rewrite Hy, IH].
Qed.

Lemma replace_row_twice g a v1 v2 rows :
  replace_row (Row g a v2) (replace_row (Row g a v1) rows)
    = replace_row (Row g a v2) rows.
Proof.
  unfold replace_row; simpl.
  now rewrite (filter_negb_idempotent (same_key g a)) by apply same_key_refl.
Qed.

(** X7: on a path that names a database file and a table that satisfies
    its primary key, two upserts of an artifact that meet no fault leave the
    table as the second alone would: the later version is read back and the
    key has one row. *)
Theorem update_current_version_last_wins E g a v1 v2 p w :
  private p = false ->
  unique_keys (rows_at p w) ->
  faultless E (connections w) 3 ->
  faultless E (S (connections w)) 3 ->
  let w1 := snd (update_current_version_in_db E g a v1 p w) in
  let w2 := snd (update_current_version_in_db E g a v2 p w1) in
  rows_at p w2 = replace_row (Row g a v2) (rows_at p w) /\
  stored_version g a p w2 = v2 /\
  records_for g a (rows_at p w2) = 1 /\
  unique_keys (rows_at p w2).
Proof.
  intros Hfile Hkeys H1 H2. cbn zeta.
  rewrite (update_current_version_ok E g a v1 p w H1). cbn [snd].
  rewrite update_current_version_ok by (now rewrite upserted_connections).
  cbn [snd]. rewrite stored_version_upserted, !upserted_rows by exact Hfile.
  rewrite replace_row_twice, records_for_replace_row.
  repeat split. now apply unique_keys_replace_row.
Qed.

Lemma update_current_version_last_wins_witness :
  let E := Scenario.answering (LatestText None) [] in
  let w := Scenario.tracking "org.example" "lib" "3.0" in
  let w1 :=
    snd (update_current_version_in_db E "org.example" "lib" (Some "3.1.0")
           default_db w) in
  let w2 :=
    snd (update_current_version_in_db E "org.example" "lib" (Some "3.2.0")
           default_db w1) in
  rows_at default_db w2 =
    replace_row (Row "org.example" "lib" (Some "3.2.0")) (rows_at default_db w)
  /\ stored_version "org.example" "lib" default_db w2 = Some "3.2.0"
  /\ records_for "org.example" "lib" (rows_at default_db w2) = 1
  /\ unique_keys (rows_at default_db w2).
Proof.
  apply (update_current_version_last_wins
           (Scenario.answering (LatestText None) []) "org.example" "lib"
           (Some "3.1.0") (Some "3.2.0") default_db
           (Scenario.tracking "org.example" "lib" "3.0"));
    [ reflexivity
    | intros g a;
      change (rows_at default_db (Scenario.tracking "org.example" "lib" "3.0"))
        with [Row "org.example" "lib" (Some "3.0")];
      unfold records_for; simpl; destruct (same_key g a _); simpl; lia
    | intros k _; reflexivity
    | intros k _; reflexivity ].
Defined.

(** * The listing *)

Lemma emit_all_stdout ls w : stdout (emit_all ls w) = (stdout w ++ ls)%list.
Proof.
  unfold emit_all. revert w.
  induction ls as [|l ls IH]; intros w; simpl; [now rewrite app_nil_r|].
  rewrite IH. simpl. now rewrite <- app_assoc.
Qed.

Lemma emit_all_files ls w : files (emit_all ls w) = files w.
Proof.
  unfold emit_all. revert w.
  induction ls as [|l ls IH]; intros w; simpl; [reflexivity | now rewrite IH].
Qed.

Lemma emit_all_app ls ls' w :
  emit_all (ls ++ ls') w = emit_all ls' (emit_all ls w).
Proof. unfold emit_all. apply fold_left_app. Qed.

Lemma emit_rows rows w :
  fold_left (fun w r => emit (print_row r) w) rows w
    = emit_all (List.map print_row rows) w.
Proof.
  unfold emit_all. revert w.
  induction rows as [|r rows IH]; intros w; simpl; [reflexivity | apply IH].
Qed.

(** The four ways through [print_current_versions]. *)
Lemma print_current_versions_cases E p w :
  (exists e,
      fault E (connections w) 0 = Some e /\
      print_current_versions E p w =
        (Raised (UnboundLocalError "conn"),
         emit ("Database error: " ++ e) (open_connection w))) \/
  (exists e,
      (fault E (connections w) 1 = Some e \/ files w !! p = None) /\
      print_current_versions E p w =
        (Returned tt, emit ("Database error: " ++ e) (open_connection w))) \/
  (exists rows,
      files w !! p = Some rows /\
      fault E (connections w) 0 = None /\
      fault E (connections w) 1 = None /\
      print_current_versions E p w =
        (Returned tt, emit_all (listing rows) (open_connection w))).
Proof.
  unfold print_current_versions, db_session, sqlite_call, bind, raise.
  destruct (fault E (connections w) 0) as [e|]; [left; now exists e|].
  destruct (fault E (connections w) 1) as [e|];
    [right; left; exists e; split; [now left | reflexivity]|].
  cbn [files open_connection].
  destruct (files w !! p) as [rows|] eqn:Hp;
    [|right; left; eexists; split; [now right | reflexivity]].
  right; right. exists rows. repeat split.
  destruct rows as [|r rows]; [reflexivity|].
  unfold print, modify. cbn [listing].
  change (emit_all ("Current Artifact Versions:" :: ?l) ?x)
    with (emit_all l (emit "Current Artifact Versions:" x)).
  now rewrite emit_all_app, <- emit_rows.
Qed.

(** X8: on a database that has the table and meets no fault, the listing
    is a header, one line [- group:name - version] per record in the order
    of the table, and an empty line; for an empty table it is the line that
    says so, and an empty line. *)
Theorem print_current_versions_lists_table E p w rows :
  faultless E (connections w) 1 ->
  files w !! p = Some rows ->
  fst (print_current_versions E p w) = Returned tt /\
  printed w (snd (print_current_versions E p w)) = listing rows /\
  List.length (listing rows) = 2 + List.length rows.
Proof.
  intros Hok Hp.
  destruct (print_current_versions_cases E p w)
    as [(e & H0 & _)|[(e & [H1|Hnone] & _)|(rows' & Hp' & _ & _ & ->)]].
  - rewrite Hok in H0 by lia. discriminate.
  - rewrite Hok in H1 by lia. discriminate.
  - congruence.
  - assert (rows' = rows) as -> by congruence.
    split; [reflexivity|]. split.
    + apply printed_app. cbn [snd]. now rewrite emit_all_stdout.
    + destruct rows; simpl; [reflexivity|].
      rewrite length_app, length_map. simpl. lia.
Qed.

Lemma print_current_versions_lists_table_witness :
  fst (print_current_versions (Scenario.answering (LatestText None) [])
         default_db (Scenario.tracking "org.example" "lib" "3.0"))
    = Returned tt /\
  printed (Scenario.tracking "org.example" "lib" "3.0")
    (snd (print_current_versions (Scenario.answering (LatestText None) [])
            default_db (Scenario.tracking "org.example" "lib" "3.0")))
    = listing [Row "org.example" "lib" (Some "3.0")] /\
  List.length (listing [Row "org.example" "lib" (Some "3.0")]) = 3.
Proof.
  apply (print_current_versions_lists_table
           (Scenario.answering (LatestText None) []) default_db
           (Scenario.tracking "org.example" "lib" "3.0")
           [Row "org.example" "lib" (Some "3.0")]);
    [intros k _; reflexivity | reflexivity].
Defined.


(** * Invariants of the store *)

Section Keeps.

Variable E : Env.
Variable P : World -> Prop.
Hypothesis P_emit : forall l w, P w -> P (emit l w).
Hypothesis P_open : forall w, P w -> P (open_connection w).
Hypothesis P_request : forall u w, P w -> P (log_request u w).
Hypothesis P_consulted : forall p w, P w -> P (consulted p w).
Hypothesis P_upserted : forall p r w, P w -> P (upserted p r w).

Lemma P_emit_all ls w : P w -> P (emit_all ls w).
Proof.
  unfold emit_all. revert w.
  induction ls as [|l ls IH]; intros w Hw; simpl; [exact Hw|].
  apply IH, P_emit, Hw.
Qed.

Lemma keeps_bind {A B} (m : M A) (k : A -> M B) :
  keeps P m -> (forall a, keeps P (k a)) -> keeps P (bind m k).
Proof.
  intros Hm Hk w Hw. unfold bind.
  specialize (Hm w Hw). destruct (m w) as [[a|e] w1]; simpl in *.
  - now apply Hk.
  - exact Hm.
Qed.

Lemma keeps_ret {A} (a : A) : keeps P (ret a).
Proof. intros w Hw. exact Hw. Qed.

Lemma keeps_print l : keeps P (print l).
Proof. intros w Hw. now apply P_emit. Qed.

Lemma keeps_get_current_version g a p :
  keeps P (get_current_version_from_db E g a p).
Proof.
  intros w Hw.
  destruct (get_current_version_cases E g a p w)
    as [(e & _ & ->)|[(e & _ & _ & ->)|[(e & _ & _ & _ & ->)|(_ & _ & ->)]]];
    cbn [snd]; auto.
Qed.

Lemma keeps_update_current_version g a v p :
  keeps P (update_current_version_in_db E g a v p).
Proof.
  intros w Hw.
  destruct (update_current_version_cases E g a v p w)
    as [(e & ->)|[(e & ->)|[(e & ->)| ->]]]; cbn [snd]; auto.
Qed.

Lemma keeps_print_current_versions p :
  keeps P (print_current_versions E p).
Proof.
  intros w Hw.
  destruct (print_current_versions_cases E p w)
    as [(e & _ & ->)|[(e & _ & ->)|(rows & _ & _ & _ & ->)]];
    cbn [snd]; auto using P_emit_all.
Qed.

Lemma keeps_get_latest_version g a : keeps P (get_latest_version E g a).
Proof.
  intros w Hw. rewrite get_latest_version_eq. cbn [snd].
  apply (P_emit_all _ _ (P_request _ _ Hw)).
Qed.

Lemma keeps_check_for_new_version g a :
  keeps P (check_for_new_version E g a).
Proof.
  unfold check_for_new_version.
  apply keeps_bind; [apply keeps_get_current_version | intros cur].
  apply keeps_bind; [apply keeps_get_latest_version | intros latest].
  repeat match goal with |- context [if ?b then _ else _] => destruct b end;
    apply keeps_ret.
Qed.

Lemma keeps_main_body g a : keeps P (main_body E g a).
Proof.
  unfold main_body.
  apply keeps_bind; [apply keeps_check_for_new_version | intros new].
  destruct (Py.truthy new).
  - repeat (apply keeps_bind; [|intros ?]);
      first [ apply keeps_print
            | apply keeps_update_current_version
            | apply keeps_get_current_version ].
  - apply keeps_bind; [apply keeps_print | intros _].
    apply keeps_bind; [apply keeps_get_current_version | intros cur].
    destruct (Py.is_none cur); [|apply keeps_ret].
    repeat (apply keeps_bind; [|intros ?]);
      first [ apply keeps_print
            | apply keeps_update_current_version
            | apply keeps_get_latest_version ].
Qed.

Lemma keeps_main_for artifacts : keeps P (main_for E artifacts).
Proof.
  induction artifacts as [|x rest IH]; simpl; [apply keeps_ret|].
  apply keeps_bind; [|intros _; exact IH].
  destruct (_ || _); [apply keeps_print | apply keeps_main_body].
Qed.

Lemma keeps_main : keeps P (main E).
Proof.
  unfold main.
  apply keeps_bind; [apply keeps_print_current_versions | intros _].
  apply keeps_bind; [|intros artifacts].
  - unfold load_artifacts_from_json. destruct (artifacts_json E);
      try apply keeps_ret;
      (apply keeps_bind; [apply keeps_print | intros _; apply keeps_ret]).
  - destruct (negb _); [apply keeps_print|].
    apply keeps_bind; [apply keeps_print | intros _].
    apply keeps_main_for.
Qed.

End Keeps.

Lemma all_unique_upserted p r w : all_unique w -> all_unique (upserted p r w).
Proof.
  intros Hw q. destruct (decide (p = q)) as [<-|Hne].
  - destruct (private p) eqn:Hp.
    + rewrite upserted_private by exact Hp. apply Hw.
    + rewrite upserted_rows by exact Hp. apply unique_keys_replace_row, Hw.
  - unfold rows_at. rewrite files_upserted_other by exact Hne. apply Hw.
Qed.

(** X6: the primary key is an invariant of the program: if no key has two
    rows in any table before [main] runs, none has afterwards, whatever the
    catalog, the replies and the faults. *)
Theorem main_keeps_primary_key E w :
  all_unique w -> all_unique (snd (main E w)).
Proof.
  apply (keeps_main E all_unique); try (intros; assumption).
  - intros p w0 Hw q. rewrite rows_at_consulted. apply Hw.
  - intros p r w0. apply all_unique_upserted.
Qed.

Lemma main_keeps_primary_key_witness :
  all_unique
    (snd (main (Scenario.answering (LatestText (Some "3.1.0")) [Scenario.lib])
            Scenario.fresh)).
Proof.
  apply (main_keeps_primary_key
           (Scenario.answering (LatestText (Some "3.1.0")) [Scenario.lib])
           Scenario.fresh).
  intros p g a. unfold rows_at, records_for. simpl. rewrite lookup_empty.
  simpl. lia.
Defined.

(** * The resolver *)

Lemma replace_idempotent old new s :
  Py.replace old new (Py.replace old new s) = Py.replace old new s.
Proof.
  induction s as [|c s IH]; simpl; [reflexivity|]. rewrite IH. f_equal.
  destruct (Ascii.eqb c old) eqn:Hc; [|now rewrite Hc].
  destruct (Ascii.eqb new old) eqn:Hn; reflexivity.
Qed.

(** X1: the resolver reads the dots of a group as path separators, so a
    group written with slashes is looked up exactly as the same group
    written with dots: same URL, same reply, same effects. *)
Theorem get_latest_version_dots_are_slashes E g a w :
  metadata_url (Py.replace "." "/" g) a = metadata_url g a /\
  get_latest_version E (Py.replace "." "/" g) a w
    = get_latest_version E g a w.
Proof.
  assert (metadata_url (Py.replace "." "/" g) a = metadata_url g a) as Hurl.
  { unfold metadata_url. now rewrite replace_idempotent. }
  split; [exact Hurl|].
  unfold get_latest_version. now rewrite Hurl.
Qed.

(** * The catalog *)

(** X12: entries of the catalog without a group or without a name are
    skipped: for a catalog made of such entries the loop prints one warning
    per entry and does nothing else (no connection, no request, no
    write). *)
Theorem main_for_skips_malformed E artifacts w :
  forallb malformed artifacts = true ->
  main_for E artifacts w =
    (Returned tt, emit_all (List.repeat warning (List.length artifacts)) w).
Proof.
  revert w. induction artifacts as [|x rest IH]; intros w Hall.
  - reflexivity.
  - cbn [forallb] in Hall. apply andb_true_iff in Hall as [Hx Hrest].
    cbn [main_for]. unfold bind at 1. unfold malformed in Hx. rewrite Hx.
    cbn [print modify]. now rewrite IH.
Qed.

Lemma main_for_skips_malformed_witness :
  main_for (Scenario.answering (LatestText (Some "3.1.0")) [])
    [Artifact (Some "org.example") None; Artifact (Some "") (Some "lib")]
    Scenario.fresh
  = (Returned tt, emit_all [warning; warning] Scenario.fresh).
Proof.
  apply (main_for_skips_malformed
           (Scenario.answering (LatestText (Some "3.1.0")) [])
           [Artifact (Some "org.example") None; Artifact (Some "") (Some "lib")]
           Scenario.fresh).
  reflexivity.
Defined.



Lemma emit_all_quiet ls w :
  requests (emit_all ls w) = requests w /\
  replaced (emit_all ls w) = replaced w /\
  connections (emit_all ls w) = connections w.
Proof.
  unfold emit_all. revert w.
  induction ls as [|l ls IH]; intros w; simpl; [now repeat split|].
  destruct (IH (emit l w)) as (? & ? & ?). now repeat split.
Qed.





(** * A whole run *)

Lemma load_artifacts_from_json_eq E :
  exists ls, forall w,
    load_artifacts_from_json E w = (Returned (catalog E), emit_all ls w).
Proof.
  unfold load_artifacts_from_json, catalog.
  destruct (artifacts_json E).
  - now exists ["Error: artifacts.json not found."].
  - now exists ["Error: Invalid JSON in artifacts.json."].
  - now exists [].
Qed.

Lemma requests_at_most_main_for E artifacts :
  requests_at_most (2 * List.length artifacts) (main_for E artifacts).
Proof.
  induction artifacts as [|x rest IH].
  - apply requests_at_most_quiet. intros w. reflexivity.
  - cbn [main_for].
    apply (requests_at_most_weaken (2 + 2 * List.length rest));
      [simpl; lia|].
    apply requests_at_most_bind; [|intros _; exact IH].
    destruct (_ || _); [|apply two_requests_main_body].
    apply (requests_at_most_weaken 0); [lia | apply quiet_print].
Qed.

(** X14: a run makes at most two requests per entry of the catalog,
    whatever the replies and the faults. *)
Theorem main_requests_at_most_two_per_entry E w :
  exists l,
    requests (snd (main E w)) = (requests w ++ l)%list /\
    List.length l <= 2 * List.length (catalog E).
Proof.
  revert w. change (requests_at_most (2 * List.length (catalog E)) (main E)).
  unfold main.
  apply (requests_at_most_bind 0); [|intros _].
  { apply requests_at_most_quiet.
    apply (preserves_print_current_versions E _ requests); reflexivity. }
  intros w. unfold bind at 1.
  destruct (load_artifacts_from_json_eq E) as (ls & ->).
  destruct (emit_all_quiet ls w) as (Hreq & _ & _).
  destruct (negb (email_settings E)).
  - exists []. cbn [snd print modify]. rewrite app_nil_r.
    split; [exact Hreq | simpl; lia].
  - destruct (requests_at_most_bind 0 _ (print "New Versions:")
                (fun _ => main_for E (catalog E)) (quiet_print _)
                (fun _ => requests_at_most_main_for E (catalog E))
                (emit_all ls w)) as (l & Hl & Hn).
    exists l. now rewrite Hl, Hreq.
Qed.

(** X15: once [sqlite3.connect] has given a connection, no fault of a
    statement or of the commit leaves a database function as an exception:
    the read of the baseline, the upsert and the listing each return
    normally, whichever of their later calls into SQLite raises
    [sqlite3.Error]. *)
Theorem database_functions_contain_statement_faults E g a v p w :
  fault E (connections w) 0 = None ->
  (exists cur w',
      get_current_version_from_db E g a p w = (Returned cur, w')) /\
  (exists w', update_current_version_in_db E g a v p w = (Returned tt, w')) /\
  (exists w', print_current_versions E p w = (Returned tt, w')).
Proof.
  intros Hconnect. repeat split.
  - unfold get_current_version_from_db, db_session, sqlite_call, bind,
      modify, raise.
    rewrite Hconnect.
    destruct (fault E (connections w) 1); [now eexists _, _|].
    destruct (fault E (connections w) 2); [now eexists _, _|].
    destruct (select_version g a _); now eexists _, _.
  - unfold update_current_version_in_db, db_session, sqlite_call, bind,
      modify, raise.
    rewrite Hconnect.
    destruct (fault E (connections w) 1); [now eexists|].
    destruct (fault E (connections w) 2); [now eexists|].
    destruct (fault E (connections w) 3); now eexists.
  - destruct (print_current_versions_cases E p w)
      as [(e & H0 & _)|[(e & _ & ->)|(rows & _ & _ & _ & ->)]].
    + rewrite Hconnect in H0. discriminate.
    + now eexists.
    + now eexists.
Qed.

Lemma database_functions_contain_statement_faults_witness :
  let E := Faults.statement_fault 0 2 (LatestText None) in
  (exists cur w',
      get_current_version_from_db E "org.example" "lib" default_db
        Scenario.fresh = (Returned cur, w')) /\
  (exists w',
      update_current_version_in_db E "org.example" "lib" (Some "3.1.0")
        default_db Scenario.fresh = (Returned tt, w')) /\
  (exists w', print_current_versions E default_db Scenario.fresh
                = (Returned tt, w')).
Proof.
  apply (database_functions_contain_statement_faults
           (Faults.statement_fault 0 2 (LatestText None))
           "org.example" "lib" (Some "3.1.0") default_db Scenario.fresh).
  reflexivity.
Defined.

(** X13: a run never reaches the notification channel, whatever the
    catalog, the replies and the faults: nothing in [main] calls
    [send_email], and the calls handed to the SES client are after the run
    what they were before it. *)
Theorem main_never_sends_email E w :
  ses_requests (snd (main E w)) = ses_requests w.
Proof. apply (preserves_main E _ ses_requests); reflexivity. Qed.

Lemma stored_version_emit_all g a p ls w :
  stored_version g a p (emit_all ls (open_connection w))
    = stored_version g a p w.
Proof.
  apply stored_version_rows. unfold rows_at. now rewrite emit_all_files.
Qed.

(** X16: failure isolation for a whole run.  On a healthy store that holds
    no empty version string, with email settings and a remote that answers
    by URL and never with an empty version string, [main] ends normally;
    afterwards every artifact of the catalog (group and name not empty)
    that the remote resolves is recorded with its resolved version, and
    every artifact that the remote fails to resolve keeps the version the
    store held for it. *)
Theorem main_isolates_failures E answer w :
  healthy E ->
  (forall n url, remote E n url = answer url) ->
  (forall url, not_blank (latest_of (answer url)) = true) ->
  email_settings E = true ->
  blank_free w ->
  exists w',
    main E w = (Returned tt, w') /\
    (forall g a v,
        In (Artifact (Some g) (Some a)) (catalog E) ->
        nonempty g = true -> nonempty a = true ->
        answer (metadata_url g a) = LatestText (Some v) ->
        stored_version g a default_db w' = Some v) /\
    (forall g a c,
        latest_of (answer (metadata_url g a)) = None ->
        stored_version g a default_db w = Some c ->
        stored_version g a default_db w' = Some c).
Proof.
  intros Hdb Hremote Hanswer Hsettings Hw.
  unfold main, bind.
  destruct (print_current_versions_cases E default_db w)
    as [(e & H0 & _)|[(e & _ & ->)|(rows & _ & _ & _ & ->)]].
  - unfold fault in H0. rewrite Hdb in H0. discriminate.
  - destruct (load_artifacts_from_json_eq E) as (ls & ->).
    rewrite Hsettings. cbn [negb print modify].
    change (emit ?l (open_connection w))
      with (emit_all [l] (open_connection w)).
    rewrite <- emit_all_app.
    change (emit "New Versions:" (emit_all ?l0 (open_connection w)))
      with (emit_all ["New Versions:"] (emit_all l0 (open_connection w))).
    rewrite <- emit_all_app.
    set (w0 := emit_all _ (open_connection w)).
    destruct (main_for_isolates_failures E Hdb answer Hremote Hanswer
                (catalog E) w0) as (w' & -> & _ & Hres & Hfail).
    { intros g a. unfold w0. rewrite stored_version_emit_all. apply Hw. }
    exists w'. repeat split; [exact Hres|].
    intros g a c Hnone Hc. apply (Hfail g a c Hnone).
    unfold w0. now rewrite stored_version_emit_all.
  - destruct (load_artifacts_from_json_eq E) as (ls & ->).
    rewrite Hsettings. cbn [negb print modify].
    rewrite <- emit_all_app.
    change (emit "New Versions:" (emit_all ?l0 (open_connection w)))
      with (emit_all ["New Versions:"] (emit_all l0 (open_connection w))).
    rewrite <- emit_all_app.
    set (w0 := emit_all _ (open_connection w)).
    destruct (main_for_isolates_failures E Hdb answer Hremote Hanswer
                (catalog E) w0) as (w' & -> & _ & Hres & Hfail).
    { intros g a. unfold w0. rewrite stored_version_emit_all. apply Hw. }
    exists w'. repeat split; [exact Hres|].
    intros g a c Hnone Hc. apply (Hfail g a c Hnone).
    unfold w0. now rewrite stored_version_emit_all.
Qed.

Lemma main_isolates_failures_witness :
  let answer := fun url =>
    if String.eqb url Scenario.core_url then RequestException "timed out"
    else LatestText (Some "1.0") in
  let E := Faults.by_url answer [Scenario.lib; Scenario.core; Scenario.util] in
  let w := Scenario.tracking "org.example" "core" "0.9" in
  exists w',
    main E w = (Returned tt, w') /\
    (forall g a v,
        In (Artifact (Some g) (Some a)) (catalog E) ->
        nonempty g = true -> nonempty a = true ->
        answer (metadata_url g a) = LatestText (Some v) ->
        stored_version g a default_db w' = Some v) /\
    (forall g a c,
        latest_of (answer (metadata_url g a)) = None ->
        stored_version g a default_db w = Some c ->
        stored_version g a default_db w' = Some c).
Proof.
  apply (main_isolates_failures
           (Faults.by_url
              (fun url =>
                 if String.eqb url Scenario.core_url
                 then RequestException "timed out"
                 else LatestText (Some "1.0"))
              [Scenario.lib; Scenario.core; Scenario.util])
           (fun url =>
              if String.eqb url Scenario.core_url
              then RequestException "timed out"
              else LatestText (Some "1.0"))
           (Scenario.tracking "org.example" "core" "0.9")).
  - intros c. reflexivity.
  - intros n url. reflexivity.
  - intros url. destruct (String.eqb url Scenario.core_url); reflexivity.
  - reflexivity.
  - intros g a. unfold stored_version, select_version.
    change (rows_at default_db (Scenario.tracking "org.example" "core" "0.9"))
      with [Row "org.example" "core" (Some "0.9")].
    simpl. destruct (same_key g a _); reflexivity.
Defined.

(** * Edges of the comparison *)

(** X17: when a statement of the read of the baseline faults, the read
    answers [None] and [check_for_new_version] takes the artifact for one it
    has never seen: it returns the resolved version as new, whatever the
    store holds, also the very same version. *)
Theorem check_for_new_version_after_read_fault E g a w k e v :
  (k = 1 \/ k = 2) ->
  sqlite_fault E (connections w) = Some (k, e) ->
  reply E g a w = LatestText (Some v) ->
  nonempty v = true ->
  fst (check_for_new_version E g a w) = Returned (Some v).
Proof.
  intros Hk Hfault Hreply Hv.
  assert (fault E (connections w) k = Some e) as Hat.
  { unfold fault. now rewrite Hfault, Nat.eqb_refl. }
  assert (exists w1,
            get_current_version_from_db E g a default_db w
              = (Returned None, w1) /\ requests w1 = requests w)
    as (w1 & Hget & Hreq).
  { destruct (get_current_version_cases E g a default_db w)
      as [(e' & H0 & _)|[(e' & _ & _ & ->)|[(e' & _ & _ & _ & ->)
         |(H1 & H2 & _)]]].
    - unfold fault in H0. rewrite Hfault in H0.
      destruct Hk as [->| ->]; discriminate.
    - now eexists.
    - eexists; split; [reflexivity | now autorewrite with world].
    - destruct Hk as [->| ->]; congruence. }
  unfold check_for_new_version, bind. rewrite Hget, get_latest_version_eq.
  unfold reply in *. rewrite Hreq, Hreply. cbn [latest_of].
  rewrite truthy_nonempty, Hv. reflexivity.
Qed.

Lemma check_for_new_version_after_read_fault_witness :
  stored_version "org.example" "lib" default_db
    (Scenario.tracking "org.example" "lib" "3.1.0") = Some "3.1.0" /\
  fst (check_for_new_version
         (Faults.statement_fault 0 2 (LatestText (Some "3.1.0")))
         "org.example" "lib" (Scenario.tracking "org.example" "lib" "3.1.0"))
    = Returned (Some "3.1.0").
Proof.
  split; [reflexivity|].
  apply (check_for_new_version_after_read_fault
           (Faults.statement_fault 0 2 (LatestText (Some "3.1.0")))
           "org.example" "lib" (Scenario.tracking "org.example" "lib" "3.1.0")
           2 "disk I/O error" "3.1.0");
    [right; reflexivity | reflexivity | reflexivity | reflexivity].
Defined.

(** X18: a record whose version is the empty string is never replaced: the
    empty string is falsy without being [None], so on a healthy store the
    body of the loop reports no new version, commits nothing and leaves the
    database files as they were, whatever the remote answers. *)
Theorem empty_baseline_is_never_replaced E g a w :
  healthy E ->
  stored_version g a default_db w = Some "" ->
  exists w1 w',
    check_for_new_version E g a w = (Returned None, w1) /\
    main_body E g a w = (Returned tt, w') /\
    replaced w' = replaced w /\
    files w' = files w.
Proof.
  intros Hdb Hstored.
  apply (main_body_known_keeps_store E Hdb g a w ""); [|exact Hstored].
  rewrite Hstored. apply decided_blank.
Qed.

Lemma empty_baseline_is_never_replaced_witness :
  exists w1 w',
    check_for_new_version
      (Scenario.answering (LatestText (Some "3.1.0")) [Scenario.lib])
      "org.example" "lib" (Scenario.tracking "org.example" "lib" "")
      = (Returned None, w1) /\
    main_body (Scenario.answering (LatestText (Some "3.1.0")) [Scenario.lib])
      "org.example" "lib" (Scenario.tracking "org.example" "lib" "")
      = (Returned tt, w') /\
    replaced w' = replaced (Scenario.tracking "org.example" "lib" "") /\
    files w' = files (Scenario.tracking "org.example" "lib" "").
Proof.
  apply (empty_baseline_is_never_replaced
           (Scenario.answering (LatestText (Some "3.1.0")) [Scenario.lib])
           "org.example" "lib" (Scenario.tracking "org.example" "lib" ""));
    [intros c; reflexivity | reflexivity].
Defined.

(** X19: an artifact the store reads no version for, whose first request
    gives no version and whose second one does, is recorded by the second
    branch of the loop without any notification: the store then reads the
    version, the line "First version added" is printed, and neither a
    subject nor the line of a new version is. *)
Theorem first_version_is_added_silently E g a w v :
  healthy E ->
  stored_version g a default_db w = None ->
  latest_of (reply E g a w) = None ->
  remote E (S (List.length (requests w))) (metadata_url g a)
    = LatestText (Some v) ->
  exists w',
    main_body E g a w = (Returned tt, w') /\
    stored_version g a default_db w' = Some v /\
    In (first_version_line g a (Some v)) (printed w w') /\
    ~ In (subject_line g a) (printed w w') /\
    ~ In (new_version_line g a v) (printed w w').
Proof.
  intros Hdb Hcur Hfirst Hsecond.
  assert (decided (latest_of (reply E g a w))
            (stored_version g a default_db w) = None) as Hnew.
  { now rewrite Hfirst. }
  pose proof (main_body_unknown E Hdb g a w Hnew Hcur) as Hrun.
  cbn zeta in Hrun.
  assert (reply E g a
            (consulted default_db
               (emit ("- No new version available for " ++ g ++ ":" ++ a
                        ++ ".")
                  (fetched E g a (consulted default_db w))))
          = LatestText (Some v)) as Hreply.
  { unfold reply. autorewrite with world.
    rewrite length_app, Nat.add_comm. exact Hsecond. }
  assert (reply E g a (fetched E g a (consulted default_db w))
          = LatestText (Some v)) as Hreply'.
  { now rewrite reply_consulted, reply_emit in Hreply. }
  rewrite Hreply in Hrun. cbn [latest_of] in Hrun.
  rewrite Hrun. eexists; split; [reflexivity|].
  split; [now autorewrite with world|].
  match goal with |- context [printed w ?x] =>
    assert (printed w x
            = (complaint (reply E g a w)
                 ++ [no_new_version_line g a;
                     first_version_line g a (Some v)])%list) as ->
  end.
  { apply printed_app. autorewrite with world. rewrite Hreply'. cbn [complaint].
    rewrite app_nil_r, <- !app_assoc. reflexivity. }
  generalize (reply E g a w) as r. clear. intros r.
  repeat split;
    [ apply in_app_iff; right; right; now left
    | distinct_lines | distinct_lines ].
Qed.

Lemma first_version_is_added_silently_witness :
  exists w',
    main_body (Faults.flaky (LatestText (Some "3.1.0"))) "org.example" "lib"
      Scenario.fresh = (Returned tt, w') /\
    stored_version "org.example" "lib" default_db w' = Some "3.1.0" /\
    In (first_version_line "org.example" "lib" (Some "3.1.0"))
      (printed Scenario.fresh w') /\
    ~ In (subject_line "org.example" "lib") (printed Scenario.fresh w') /\
    ~ In (new_version_line "org.example" "lib" "3.1.0")
        (printed Scenario.fresh w').
Proof.
  apply (first_version_is_added_silently
           (Faults.flaky (LatestText (Some "3.1.0"))) "org.example" "lib"
           Scenario.fresh "3.1.0");
    [intros c; reflexivity | reflexivity | reflexivity | reflexivity].
Defined.

(** * A write that faults *)

Lemma update_current_version_faulted E g a v p w k e :
  (k = 1 \/ k = 2 \/ k = 3) ->
  sqlite_fault E (connections w) = Some (k, e) ->
  exists w1,
    update_current_version_in_db E g a v p w = (Returned tt, w1) /\
    rows_at p w1 = rows_at p w /\
    stdout w1 = (stdout w ++ [database_error e])%list /\
    requests w1 = requests w /\
    replaced w1 = replaced w /\
    connections w1 = S (connections w).
Proof.
  intros Hk Hfault.
  assert (forall j, fault E (connections w) j
                    = if Nat.eqb k j then Some e else None) as Hat.
  { intros j. unfold fault. now rewrite Hfault. }
  unfold update_current_version_in_db, db_session, sqlite_call, bind, modify,
    raise.
  rewrite !Hat.
  destruct Hk as [->|[->| ->]]; cbn [Nat.eqb];
    (eexists; split; [reflexivity|]); cbn [stdout requests replaced
      connections emit];
    rewrite ?create_table_stdout, ?create_table_requests,
      ?create_table_replaced, ?create_table_connections,
      ?rows_at_emit, ?create_table_rows;
    now repeat split.
Qed.

(** X20: when the write of a new version faults at a statement or at the
    commit, the error is printed and the notification is printed all the
    same, while the store keeps the old version; the body of the
    notification then does give the old version as the previous one. *)
Theorem failed_write_is_still_announced E g a w c v k e :
  faultless E (connections w) 2 ->
  (k = 1 \/ k = 2 \/ k = 3) ->
  sqlite_fault E (S (connections w)) = Some (k, e) ->
  faultless E (S (S (connections w))) 2 ->
  stored_version g a default_db w = Some c ->
  reply E g a w = LatestText (Some v) ->
  nonempty c = true -> nonempty v = true -> String.eqb v c = false ->
  exists w',
    main_body E g a w = (Returned tt, w') /\
    stored_version g a default_db w' = Some c /\
    replaced w' = replaced w /\
    printed w w' =
      [new_version_line g a v; database_error e; subject_line g a;
       body_text g a (Some v) (Some c)].
Proof.
  intros Hget Hk Hfault Hget' Hcur Hreply Hc Hv Hne.
  unfold main_body, check_for_new_version, bind.
  rewrite (get_current_version_ok E g a default_db w Hget).
  rewrite get_latest_version_eq, reply_consulted, Hreply, Hcur.
  cbn [latest_of]. rewrite !truthy_nonempty, Hv, Hc. cbn [Py.ne andb].
  rewrite Hne. cbn [negb ret print modify Py.str].
  rewrite truthy_nonempty, Hv.
  set (w2 := emit _ (fetched E g a (consulted default_db w))).
  assert (connections w2 = S (connections w)) as Hconn.
  { unfold w2, fetched.
    destruct (reply E g a (consulted default_db w));
      cbn [complaint fold_left emit log_request connections];
      unfold consulted; now rewrite create_table_connections. }
  destruct (update_current_version_faulted E g a (Some v) default_db w2 k e Hk)
    as (w3 & -> & Hrows & Hout & Hreq & Hrep & Hconn3).
  { now rewrite Hconn. }
  rewrite get_current_version_ok by (now rewrite Hconn3, Hconn).
  assert (stored_version g a default_db w3 = Some c) as Hkept.
  { rewrite (stored_version_rows g a default_db w2 w3 Hrows).
    unfold w2. now autorewrite with world. }
  rewrite Hkept.
  eexists; split; [reflexivity|]. split; [|split].
  - now autorewrite with world.
  - autorewrite with world. rewrite Hrep. unfold w2.
    now autorewrite with world.
  - apply printed_app. autorewrite with world. rewrite Hout. unfold w2.
    autorewrite with world. rewrite Hreply. cbn [complaint].
    rewrite app_nil_r, <- !app_assoc. reflexivity.
Qed.

Lemma failed_write_is_still_announced_witness :
  exists w',
    main_body (Faults.statement_fault 1 3 (LatestText (Some "3.1.0")))
      "org.example" "lib" (Scenario.tracking "org.example" "lib" "3.0")
      = (Returned tt, w') /\
    stored_version "org.example" "lib" default_db w' = Some "3.0" /\
    replaced w' = replaced (Scenario.tracking "org.example" "lib" "3.0") /\
    printed (Scenario.tracking "org.example" "lib" "3.0") w' =
      [new_version_line "org.example" "lib" "3.1.0";
       "Database error: disk I/O error";
       subject_line "org.example" "lib";
       body_text "org.example" "lib" (Some "3.1.0") (Some "3.0")].
Proof.
  apply (failed_write_is_still_announced
           (Faults.statement_fault 1 3 (LatestText (Some "3.1.0")))
           "org.example" "lib" (Scenario.tracking "org.example" "lib" "3.0")
           "3.0" "3.1.0" 3 "disk I/O error");
    [ intros j _; reflexivity | right; right; reflexivity | reflexivity
    | intros j _; reflexivity | reflexivity | reflexivity | reflexivity
    | reflexivity | reflexivity ].
Defined.
